(** * Cyber-organic portfolio: the scroll-driven heartbeat scene of [src/App.tsx]

    A shallow embedding of the one source file of the application (and of
    a second revision of the same file that is kept next to it) together
    with the properties of its per-frame callback, its scroll timeline, its
    audio initialisation and its start overlay.

    Conventions of the embedding.
    - JavaScript numbers are modelled by exact rationals ([Q]); decimal
      literals are the literals of the source.  Rounding of IEEE doubles is
      not modelled.
    - A React ref whose [current] may be [null] is a [RefSlot]; the object it
      points at lives in the world record, so that the timeline (which
      captures the objects when it is built) and the per-frame callback
      (which goes through the refs) mutate the same object.
    - A property access on [null] is a [TypeError] of the [result] monad.
    - [async] functions are run to completion: every awaited promise is
      taken to be fulfilled.
    - The timeline is rendered where its playhead settles; the second the
      scrub takes to get there is not modelled.  The numbers of the
      timeline are exact; the rounding to six decimals with which the
      animation library writes them is kept apart ([round6]). *)

From Stdlib Require Import QArith Qminmax Qround Lqa Lia ZArith.
From Stdlib Require Import String Ascii List Bool.
Import ListNotations.

Open Scope string_scope.
Open Scope Q_scope.

(* ================================================================== *)
(** * Results of code that may dereference [null] *)

Inductive result (A : Type) : Type :=
| Ok (a : A)
| TypeError (what : string).
Arguments Ok {A} a.
Arguments TypeError {A} what.

Definition bind {A B : Type} (m : result A) (k : A -> result B) : result B :=
  match m with
  | Ok a => k a
  | TypeError e => TypeError e
  end.

Notation "x <- m ;; k" := (bind m (fun x => k))
  (at level 61, m at next level, right associativity).

Definition succeeds {A : Type} (m : result A) : Prop := exists a, m = Ok a.

(** [ref.current]: either [null] or the object mounted under the ref. *)
Inductive RefSlot : Type := Null | Current.

Definition isNull (r : RefSlot) : bool :=
  match r with Null => true | Current => false end.

(** Reading a property of [ref.current]. *)
Definition deref {A : Type} (r : RefSlot) (object : A) : result A :=
  match r with
  | Current => Ok object
  | Null => TypeError "Cannot read properties of null"
  end.

(** Reading a property of a nullable field such as [audioSystem.reverb]. *)
Definition derefOpt {A : Type} (o : option A) : result A :=
  match o with
  | Some a => Ok a
  | None => TypeError "Cannot read properties of null"
  end.

Definition isSome {A : Type} (o : option A) : bool :=
  match o with Some _ => true | None => false end.

(* ================================================================== *)
(** * Numbers, vectors and colours *)

Module Math.
Definition min (a b : Q) : Q := if Qle_bool a b then a else b.
Definition PI : Q := 3.141592653589793.
End Math.

Module MathUtils.
(** [THREE.MathUtils.lerp(x, y, t)] is [(1 - t) * x + t * y]. *)
Definition lerp (x y t : Q) : Q := (1 - t) * x + t * y.
End MathUtils.

Module Vector3.
Record t : Type := mk { x : Q; y : Q; z : Q }.
Definition setScalar (s : Q) (_ : t) : t := mk s s s.
Definition set_x (v : Q) (p : t) : t := mk v (y p) (z p).
Definition set_y (v : Q) (p : t) : t := mk (x p) v (z p).
Definition set_z (v : Q) (p : t) : t := mk (x p) (y p) v.
End Vector3.

Module Color.
(** An sRGB colour with 8-bit channels, the value denoted by a CSS
    colour string. *)
Record t : Type := rgb { r : Z; g : Z; b : Z }.

Definition hexDigit (c : ascii) : option Z :=
  let n := Z.of_N (N_of_ascii c) in
  if ((48 <=? n) && (n <=? 57))%Z then Some (n - 48)%Z
  else if ((97 <=? n) && (n <=? 102))%Z then Some (n - 87)%Z
  else if ((65 <=? n) && (n <=? 70))%Z then Some (n - 55)%Z
  else None.

Definition hexByte (hi lo : ascii) : option Z :=
  match hexDigit hi, hexDigit lo with
  | Some h, Some l => Some (16 * h + l)%Z
  | _, _ => None
  end.

(** The [#rrggbb] form, the only one the source uses for tweened colours. *)
Definition parse (s : string) : option t :=
  match s with
  | String "#" (String r1 (String r2 (String g1 (String g2
      (String b1 (String b2 EmptyString)))))) =>
      match hexByte r1 r2, hexByte g1 g2, hexByte b1 b2 with
      | Some r, Some g, Some b => Some (rgb r g b)
      | _, _, _ => None
      end
  | _ => None
  end.

Definition white : t := rgb 255 255 255.
End Color.

(* ================================================================== *)
(** * The synthesiser library, as far as the application drives it *)

Module Tone.
Record Compressor : Type := { threshold : Q; ratio : Q }.
Record Reverb : Type := { decay : Q; preDelay : Q; wet : Q }.
Record Distortion : Type := { distortion : Q }.
Record Filter : Type := { frequency : Q; filterType : string }.
Record Envelope : Type :=
  { attack : Q; envDecay : Q; sustain : Q; release : option Q;
    attackCurve : option string }.
Record MembraneSynth : Type :=
  { heartVolume : Q; pitchDecay : Q; octaves : Q; oscillator : string;
    heartEnvelope : Envelope }.
Record NoiseSynth : Type :=
  { bloodVolume : Q; noise : string; bloodEnvelope : Envelope }.

Inductive LoopState : Type := LoopStarted | LoopDisposed.
Record Loop : Type := { interval : string; startAt : Q; loopState : LoopState }.

Inductive Node : Type :=
| Destination | CompressorNode | ReverbNode | DistortionNode
| LowPassNode | HeartNode | BloodNode.

(** A note handed to a synth by [triggerAttackRelease]. *)
Inductive Trigger : Type :=
| HeartTrigger (note duration : string) (time : Q)
| BloodTrigger (duration : string) (time : Q).

Inductive PlaybackState : Type := Started | Stopped.

(** The library's global state: the audio context, [Tone.Transport], the
    connections made so far and the notes triggered so far. *)
Record t : Type := mk
  { contextRunning : bool;
    transportBpm : Q;
    transportState : PlaybackState;
    transportScheduled : bool;
    connections : list (Node * Node);
    compressor : option Compressor;
    lowPass : option Filter;
    triggered : list Trigger }.

Definition initial : t :=
  mk false 120 Stopped false [] None None [].

Definition set_transportBpm (v : Q) (s : t) : t :=
  mk (contextRunning s) v (transportState s) (transportScheduled s)
     (connections s) (compressor s) (lowPass s) (triggered s).

Definition trigger (n : Trigger) (s : t) : t :=
  mk (contextRunning s) (transportBpm s) (transportState s) (transportScheduled s)
     (connections s) (compressor s) (lowPass s) (triggered s ++ [n]).
End Tone.

(** The module-level singleton [audioSystem]. *)
Module AudioSystem.
Record t : Type := mk
  { heart : option Tone.MembraneSynth;
    blood : option Tone.NoiseSynth;
    distortion : option Tone.Distortion;
    reverb : option Tone.Reverb;
    loop : option Tone.Loop;
    isReady : bool }.

Definition initial : t := mk None None None None None false.

Definition set_distortion (v : option Tone.Distortion) (a : t) : t :=
  mk (heart a) (blood a) v (reverb a) (loop a) (isReady a).
Definition set_reverb (v : option Tone.Reverb) (a : t) : t :=
  mk (heart a) (blood a) (distortion a) v (loop a) (isReady a).
Definition set_loop (v : option Tone.Loop) (a : t) : t :=
  mk (heart a) (blood a) (distortion a) (reverb a) v (isReady a).
Definition set_isReady (v : bool) (a : t) : t :=
  mk (heart a) (blood a) (distortion a) (reverb a) (loop a) v.
End AudioSystem.

(* ================================================================== *)
(** * Scene objects and the tweened parameter records *)

(** The [MeshDistortMaterial] properties the application writes. *)
Module Material.
Record t : Type := mk { color : Color.t; opacity : Q; distort : Q; speed : Q }.
(** The JSX props: [opacity={0.5} color="#ffffff" distort={0.3} speed={2}].
    [speed] is the prop of the component; the material object itself gets
    a [speed] property with the first frame. *)
Definition initial : t := mk Color.white 0.5 0.3 2.
End Material.

Module Object3D.
Record t : Type := mk
  { position : Vector3.t; rotation : Vector3.t; scale : Vector3.t }.
Definition set_position (v : Vector3.t) (o : t) : t := mk v (rotation o) (scale o).
Definition set_rotation (v : Vector3.t) (o : t) : t := mk (position o) v (scale o).
Definition set_scale (v : Vector3.t) (o : t) : t := mk (position o) (rotation o) v.
Definition origin : Vector3.t := Vector3.mk 0 0 0.
(** [<group ref={groupRef}>]: no transform props. *)
Definition initialGroup : t := mk origin origin (Vector3.mk 1 1 1).
(** [<mesh ref={wireframeRef} scale={[1.05, 1.05, 1.05]}>]. *)
Definition initialWireframe : t := mk origin origin (Vector3.mk 1.05 1.05 1.05).
(** [camera={{ position: [0, 0, 5], fov: 45 }}]. *)
Definition initialCamera : t := mk (Vector3.mk 0 0 5) origin (Vector3.mk 1 1 1).
End Object3D.

(** [visualParams.current]. *)
Module Visual.
Record t : Type := mk { color : Color.t; distort : Q; opacity : Q }.
Definition initial : t := mk Color.white 0.3 0.5.
End Visual.

(** [audioParams.current]. *)
Module Audio.
Record t : Type := mk { bpm : Q; distort : Q; reverbWet : Q }.
Definition initial : t := mk 60 0 0.3.
End Audio.

(* ================================================================== *)
(** * The animation library: tweens on a scrubbed timeline *)

Module gsap.
(** The objects handed to the timeline as tween targets. *)
Inductive Target : Type :=
| GroupPosition | GroupRotation | WireframeScale | VisualParams | AudioParams.

Definition Target_eqb (a b : Target) : bool :=
  match a, b with
  | GroupPosition, GroupPosition | GroupRotation, GroupRotation
  | WireframeScale, WireframeScale | VisualParams, VisualParams
  | AudioParams, AudioParams => true
  | _, _ => false
  end.

(** A value of a [vars] object literal. *)
Inductive Value : Type := Num (q : Q) | Str (s : string).
Definition Vars : Type := list (string * Value).

(** The live value of a tweened property. *)
Inductive PropValue : Type := PNum (q : Q) | PCol (c : Color.t).

(** The state of the five target objects. *)
Record Targets : Type := mkTargets
  { groupPosition : Vector3.t;
    groupRotation : Vector3.t;
    wireframeScale : Vector3.t;
    visual : Visual.t;
    audio : Audio.t }.

Definition getVec (k : string) (v : Vector3.t) : option PropValue :=
  if k =? "x" then Some (PNum (Vector3.x v))
  else if k =? "y" then Some (PNum (Vector3.y v))
  else if k =? "z" then Some (PNum (Vector3.z v))
  else None.

Definition setVec (k : string) (p : PropValue) (v : Vector3.t) : Vector3.t :=
  match p with
  | PNum q =>
      if k =? "x" then Vector3.set_x q v
      else if k =? "y" then Vector3.set_y q v
      else if k =? "z" then Vector3.set_z q v
      else v
  | PCol _ => v
  end.

Definition getVisual (k : string) (v : Visual.t) : option PropValue :=
  if k =? "color" then Some (PCol (Visual.color v))
  else if k =? "distort" then Some (PNum (Visual.distort v))
  else if k =? "opacity" then Some (PNum (Visual.opacity v))
  else None.

Definition setVisual (k : string) (p : PropValue) (v : Visual.t) : Visual.t :=
  match p with
  | PCol c =>
      if k =? "color" then Visual.mk c (Visual.distort v) (Visual.opacity v) else v
  | PNum q =>
      if k =? "distort" then Visual.mk (Visual.color v) q (Visual.opacity v)
      else if k =? "opacity" then Visual.mk (Visual.color v) (Visual.distort v) q
      else v
  end.

Definition getAudio (k : string) (a : Audio.t) : option PropValue :=
  if k =? "bpm" then Some (PNum (Audio.bpm a))
  else if k =? "distort" then Some (PNum (Audio.distort a))
  else if k =? "reverbWet" then Some (PNum (Audio.reverbWet a))
  else None.

Definition setAudio (k : string) (p : PropValue) (a : Audio.t) : Audio.t :=
  match p with
  | PNum q =>
      if k =? "bpm" then Audio.mk q (Audio.distort a) (Audio.reverbWet a)
      else if k =? "distort" then Audio.mk (Audio.bpm a) q (Audio.reverbWet a)
      else if k =? "reverbWet" then Audio.mk (Audio.bpm a) (Audio.distort a) q
      else a
  | PCol _ => a
  end.

Definition getProp (tg : Target) (k : string) (ts : Targets) : option PropValue :=
  match tg with
  | GroupPosition => getVec k (groupPosition ts)
  | GroupRotation => getVec k (groupRotation ts)
  | WireframeScale => getVec k (wireframeScale ts)
  | VisualParams => getVisual k (visual ts)
  | AudioParams => getAudio k (audio ts)
  end.

Definition setProp (tg : Target) (k : string) (p : PropValue) (ts : Targets) : Targets :=
  match tg with
  | GroupPosition =>
      mkTargets (setVec k p (groupPosition ts)) (groupRotation ts)
                (wireframeScale ts) (visual ts) (audio ts)
  | GroupRotation =>
      mkTargets (groupPosition ts) (setVec k p (groupRotation ts))
                (wireframeScale ts) (visual ts) (audio ts)
  | WireframeScale =>
      mkTargets (groupPosition ts) (groupRotation ts)
                (setVec k p (wireframeScale ts)) (visual ts) (audio ts)
  | VisualParams =>
      mkTargets (groupPosition ts) (groupRotation ts) (wireframeScale ts)
                (setVisual k p (visual ts)) (audio ts)
  | AudioParams =>
      mkTargets (groupPosition ts) (groupRotation ts) (wireframeScale ts)
                (visual ts) (setAudio k p (audio ts))
  end.

(** A child of the timeline: [to] has no [fromVars], [fromTo] has. *)
Record Tween : Type := mkTween
  { target : Target;
    fromVars : option Vars;
    vars : Vars;
    startTime : Q }.

(** [gsap.timeline({ scrollTrigger: { trigger, start, end, scrub } })]. *)
Record ScrollTrigger : Type :=
  { trigger : string; start : string; end_ : string; scrub : Q }.

Record Timeline : Type := mkTimeline
  { scrollTrigger : ScrollTrigger;
    children : list Tween }.

Definition timeline (st : ScrollTrigger) : Timeline := mkTimeline st [].

Fixpoint lookup (k : string) (vs : Vars) : option Value :=
  match vs with
  | [] => None
  | (k', v) :: rest => if k =? k' then Some v else lookup k rest
  end.

(** The library's default duration is half a second. *)
Definition duration (tw : Tween) : Q :=
  match lookup "duration" (vars tw) with
  | Some (Num d) => d
  | _ => 0.5
  end.

Definition endTime (tw : Tween) : Q := startTime tw + duration tw.

Definition Qmax (a b : Q) : Q := if Qle_bool a b then b else a.

Definition totalDuration (tl : Timeline) : Q :=
  fold_left (fun acc tw => Qmax acc (endTime tw)) (children tl) 0.

(** Start time of the most recently added child. *)
Definition previousStart (tl : Timeline) : Q :=
  match rev (children tl) with
  | tw :: _ => startTime tw
  | [] => 0
  end.

(** The position parameter: absent, the tween goes to the end of the
    timeline; ["<"] puts it at the start of the previous tween. *)
Definition positionTime (position : option string) (tl : Timeline) : Q :=
  match position with
  | Some p => if p =? "<" then previousStart tl else totalDuration tl
  | None => totalDuration tl
  end.

Definition to (tg : Target) (vs : Vars) (position : option string)
    (tl : Timeline) : Timeline :=
  mkTimeline (scrollTrigger tl)
    (children tl ++ [mkTween tg None vs (positionTime position tl)]).

Definition fromTo (tg : Target) (fromVs toVs : Vars) (position : option string)
    (tl : Timeline) : Timeline :=
  mkTimeline (scrollTrigger tl)
    (children tl ++ [mkTween tg (Some fromVs) toVs (positionTime position tl)]).

(** The keys of a [vars] object that name properties to animate. *)
Definition animated (vs : Vars) : Vars :=
  filter (fun kv => negb (fst kv =? "duration")) vs.

(** The library's default ease, ["power1.out"]. *)
Definition ease (p : Q) : Q := 1 - (1 - p) * (1 - p).

Definition round (q : Q) : Z := Qfloor (q + 0.5).

(** Eased fraction of a tween at timeline time [t], for [startTime < t]. *)
Definition ratio (tw : Tween) (t : Q) : Q :=
  if Qle_bool (endTime tw) t then 1
  else ease ((t - startTime tw) / duration tw).

(** The interpolated number, exact: the library rounds it to six decimals
    when it writes it. *)
Definition mixNum (s e : Q) (tw : Tween) (t : Q) : Q :=
  if Qle_bool (endTime tw) t then e
  else s + (e - s) * ratio tw t.

Definition mixChannel (s e : Z) (tw : Tween) (t : Q) : Z :=
  if Qle_bool (endTime tw) t then e
  else round (inject_Z s + (inject_Z e - inject_Z s) * ratio tw t).

Definition mixColor (s e : Color.t) (tw : Tween) (t : Q) : Color.t :=
  Color.rgb (mixChannel (Color.r s) (Color.r e) tw t)
            (mixChannel (Color.g s) (Color.g e) tw t)
            (mixChannel (Color.b s) (Color.b e) tw t).

(** Converting a literal of a [vars] object to a property value. *)
Definition literal (v : Value) : option PropValue :=
  match v with
  | Num q => Some (PNum q)
  | Str s => match Color.parse s with Some c => Some (PCol c) | None => None end
  end.

(** Writing the [from] values of a [fromTo] onto the target. *)
Definition applyVars (tg : Target) (vs : Vars) (ts : Targets) : Targets :=
  fold_left
    (fun acc kv =>
       match literal (snd kv) with
       | Some p => setProp tg (fst kv) p acc
       | None => acc
       end)
    (animated vs) ts.

(** One property of one tween at time [t]: from the value the property
    has when the tween starts to the literal of [vars]. *)
Definition renderProp (tw : Tween) (t : Q) (ts : Targets) (kv : string * Value) : Targets :=
  match getProp (target tw) (fst kv) ts, literal (snd kv) with
  | Some (PNum s), Some (PNum e) =>
      setProp (target tw) (fst kv) (PNum (mixNum s e tw t)) ts
  | Some (PCol s), Some (PCol e) =>
      setProp (target tw) (fst kv) (PCol (mixColor s e tw t)) ts
  | _, _ => ts
  end.

(** A child the playhead has not entered leaves its target alone. *)
Definition renderTween (t : Q) (ts : Targets) (tw : Tween) : Targets :=
  if Qle_bool t (startTime tw) then ts
  else
    let ts0 := match fromVars tw with
               | Some fv => applyVars (target tw) fv ts
               | None => ts
               end in
    fold_left (renderProp tw t) (animated (vars tw)) ts0.

(** The targets with the playhead at time [t], from their state [origin]
    when the timeline was built.  Children are rendered in the order they
    were added; the children of this application that animate the same
    property follow one another without overlap, so the value a child
    starts from is the value the previous ones end at. *)
Definition render (tl : Timeline) (origin : Targets) (t : Q) : Targets :=
  fold_left (renderTween t) (children tl) origin.

(** [scrub]: where the playhead settles for a scroll fraction of the
    trigger. *)
Definition scrubTo (tl : Timeline) (origin : Targets) (progress : Q) : Targets :=
  render tl origin (progress * totalDuration tl).

(** [fromTo] renders its [from] values as soon as it is created. *)
Definition immediateRender (tl : Timeline) (ts : Targets) : Targets :=
  fold_left
    (fun acc tw =>
       match fromVars tw with
       | Some fv => applyVars (target tw) fv acc
       | None => acc
       end)
    (children tl) ts.

(** Every (target, property) pair some child of the timeline animates. *)
Definition tweenedProperties (tl : Timeline) : list (Target * string) :=
  flat_map (fun tw => map (fun kv => (target tw, fst kv)) (animated (vars tw)))
           (children tl).
End gsap.

(* ================================================================== *)
(** * The world the application runs in *)

Record World : Type := mkWorld
  { (* module scope *)
    audioSystem : AudioSystem.t;
    tone : Tone.t;
    (* the App component *)
    mounted : bool;
    started : bool;
    beatSignalRef : bool;
    (* the canvas *)
    camera : Object3D.t;
    group : Object3D.t;
    material : Material.t;
    wireframe : Object3D.t;
    (* the Model component *)
    groupRef : RefSlot;
    materialRef : RefSlot;
    wireframeRef : RefSlot;
    currentScaleRef : Q;
    visualParams : Visual.t;
    audioParams : Audio.t;
    (* the scrubbed timeline and the state of its targets when it was built *)
    timeline : option (gsap.Timeline * gsap.Targets) }.

Definition set_audioSystem (v : AudioSystem.t) (w : World) : World :=
  let 'mkWorld _ b c d e f g h i j k l m n o p := w in
  mkWorld v b c d e f g h i j k l m n o p.
Definition set_tone (v : Tone.t) (w : World) : World :=
  let 'mkWorld a _ c d e f g h i j k l m n o p := w in
  mkWorld a v c d e f g h i j k l m n o p.
Definition set_started (v : bool) (w : World) : World :=
  let 'mkWorld a b c _ e f g h i j k l m n o p := w in
  mkWorld a b c v e f g h i j k l m n o p.
Definition set_beatSignalRef (v : bool) (w : World) : World :=
  let 'mkWorld a b c d _ f g h i j k l m n o p := w in
  mkWorld a b c d v f g h i j k l m n o p.
Definition set_group (v : Object3D.t) (w : World) : World :=
  let 'mkWorld a b c d e f _ h i j k l m n o p := w in
  mkWorld a b c d e f v h i j k l m n o p.
Definition set_material (v : Material.t) (w : World) : World :=
  let 'mkWorld a b c d e f g _ i j k l m n o p := w in
  mkWorld a b c d e f g v i j k l m n o p.
Definition set_wireframe (v : Object3D.t) (w : World) : World :=
  let 'mkWorld a b c d e f g h _ j k l m n o p := w in
  mkWorld a b c d e f g h v j k l m n o p.
Definition set_currentScaleRef (v : Q) (w : World) : World :=
  let 'mkWorld a b c d e f g h i j k l _ n o p := w in
  mkWorld a b c d e f g h i j k l v n o p.
Definition set_visualParams (v : Visual.t) (w : World) : World :=
  let 'mkWorld a b c d e f g h i j k l m _ o p := w in
  mkWorld a b c d e f g h i j k l m v o p.
Definition set_audioParams (v : Audio.t) (w : World) : World :=
  let 'mkWorld a b c d e f g h i j k l m n _ p := w in
  mkWorld a b c d e f g h i j k l m n v p.
Definition set_timeline (v : option (gsap.Timeline * gsap.Targets)) (w : World) : World :=
  let 'mkWorld a b c d e f g h i j k l m n o _ := w in
  mkWorld a b c d e f g h i j k l m n o v.

(** The page before React has mounted anything. *)
Definition pageLoad : World :=
  mkWorld AudioSystem.initial Tone.initial false false false
          Object3D.initialCamera Object3D.initialGroup Material.initial
          Object3D.initialWireframe Null Null Null 1 Visual.initial Audio.initial None.

(* ================================================================== *)
(** * [initAudio] and the beat loop *)

Definition compressorOptions : Tone.Compressor :=
  {| Tone.threshold := -20; Tone.ratio := 3 |}.

Definition reverbOptions : Tone.Reverb :=
  {| Tone.decay := 5; Tone.preDelay := 0.1; Tone.wet := 0.3 |}.

Definition heartOptions : Tone.MembraneSynth :=
  {| Tone.heartVolume := 0;
     Tone.pitchDecay := 0.1;
     Tone.octaves := 3;
     Tone.oscillator := "sine";
     Tone.heartEnvelope :=
       {| Tone.attack := 0.001; Tone.envDecay := 0.4; Tone.sustain := 0.01;
          Tone.release := Some 1; Tone.attackCurve := Some "exponential" |} |}.

Definition bloodOptions : Tone.NoiseSynth :=
  {| Tone.bloodVolume := -15;
     Tone.noise := "brown";
     Tone.bloodEnvelope :=
       {| Tone.attack := 0.01; Tone.envDecay := 0.3; Tone.sustain := 0;
          Tone.release := None; Tone.attackCurve := None |} |}.

(** heart -> lowPass, blood -> lowPass -> distortion -> reverb ->
    compressor -> destination, in the order the source connects them. *)
Definition synthGraph : list (Tone.Node * Tone.Node) :=
  [ (Tone.CompressorNode, Tone.Destination);
    (Tone.ReverbNode, Tone.CompressorNode);
    (Tone.DistortionNode, Tone.ReverbNode);
    (Tone.LowPassNode, Tone.DistortionNode);
    (Tone.HeartNode, Tone.LowPassNode);
    (Tone.BloodNode, Tone.LowPassNode) ].

Definition initAudio (w : World) : World :=
  if AudioSystem.isReady (audioSystem w) then w
  else
    (* await Tone.start() *)
    let compressor := compressorOptions in
    let reverb := reverbOptions in
    (* await reverb.generate() *)
    let distortion := {| Tone.distortion := 0 |} in
    let lowPass := {| Tone.frequency := 600; Tone.filterType := "lowpass" |} in
    let heart := heartOptions in
    let blood := bloodOptions in
    let loop := {| Tone.interval := "4n"; Tone.startAt := 0;
                   Tone.loopState := Tone.LoopStarted |} in
    (* Tone.Transport.bpm.value = 60; Tone.Transport.start() *)
    let tone' := Tone.mk true 60 Tone.Started true synthGraph
                         (Some compressor) (Some lowPass)
                         (Tone.triggered (tone w)) in
    set_audioSystem
      (AudioSystem.mk (Some heart) (Some blood) (Some distortion)
                      (Some reverb) (Some loop) true)
      (set_tone tone' w).

(** The callback of [new Tone.Loop(..., "4n")].  The [beatSignalRef] it
    closes over is the ref object of the App, which is never [null], so the
    test [if (beatSignalRef)] always passes. *)
Definition loopCallback (time : Q) (w : World) : World :=
  let w := set_tone (Tone.trigger (Tone.HeartTrigger "C0" "4n" time) (tone w)) w in
  let w := set_tone (Tone.trigger (Tone.BloodTrigger "8n" time) (tone w)) w in
  set_beatSignalRef true w.

(* ================================================================== *)
(** * The [Model] component *)

Definition onGroup (f : Object3D.t -> Object3D.t) (w : World) : result World :=
  g <- deref (groupRef w) (group w) ;; Ok (set_group (f g) w).

Definition onMaterial (f : Material.t -> Material.t) (w : World) : result World :=
  m <- deref (materialRef w) (material w) ;; Ok (set_material (f m) w).

Definition onWireframe (f : Object3D.t -> Object3D.t) (w : World) : result World :=
  m <- deref (wireframeRef w) (wireframe w) ;; Ok (set_wireframe (f m) w).

Definition onDistortion (f : Tone.Distortion -> Tone.Distortion) (w : World) : result World :=
  d <- derefOpt (AudioSystem.distortion (audioSystem w)) ;;
  Ok (set_audioSystem (AudioSystem.set_distortion (Some (f d)) (audioSystem w)) w).

Definition onReverb (f : Tone.Reverb -> Tone.Reverb) (w : World) : result World :=
  r <- derefOpt (AudioSystem.reverb (audioSystem w)) ;;
  Ok (set_audioSystem (AudioSystem.set_reverb (Some (f r)) (audioSystem w)) w).

Definition set_color (c : Color.t) (m : Material.t) : Material.t :=
  Material.mk c (Material.opacity m) (Material.distort m) (Material.speed m).
Definition set_opacity (v : Q) (m : Material.t) : Material.t :=
  Material.mk (Material.color m) v (Material.distort m) (Material.speed m).
Definition set_distort (v : Q) (m : Material.t) : Material.t :=
  Material.mk (Material.color m) (Material.opacity m) v (Material.speed m).
Definition set_speed (v : Q) (m : Material.t) : Material.t :=
  Material.mk (Material.color m) (Material.opacity m) (Material.distort m) v.

Definition set_rotation_y (v : Q) (o : Object3D.t) : Object3D.t :=
  Object3D.set_rotation (Vector3.set_y v (Object3D.rotation o)) o.
Definition set_rotation_x (v : Q) (o : Object3D.t) : Object3D.t :=
  Object3D.set_rotation (Vector3.set_x v (Object3D.rotation o)) o.

Definition set_wet (v : Q) (r : Tone.Reverb) : Tone.Reverb :=
  {| Tone.decay := Tone.decay r; Tone.preDelay := Tone.preDelay r; Tone.wet := v |}.

(** [audioSystem.reverb && audioSystem.reverb.wet]: [wet] is the signal
    object every reverb is constructed with, and an object is truthy
    whatever its value; the second revision tests [audioSystem.reverb]
    alone, to the same effect. *)
Definition reverbAndWet (r : option Tone.Reverb) : bool :=
  match r with Some _ => true | None => false end.

(** The callback of [useFrame((state, delta) => ...)]; [elapsed] is
    [state.clock.getElapsedTime()], which the source reads twice (once for
    each rotation) and which is taken to give the same value both
    times. *)
Definition useFrame (elapsed delta : Q) (w : World) : result World :=
  if isNull (groupRef w) then Ok w
  else
    let w := if beatSignalRef w
             then set_beatSignalRef false (set_currentScaleRef 1.3 w)
             else w in
    let safeDelta := Math.min delta 0.1 in
    let w := set_currentScaleRef
               (MathUtils.lerp (currentScaleRef w) 1 (safeDelta * 8)) w in
    w <- onGroup (fun g => Object3D.set_scale
                    (Vector3.setScalar (currentScaleRef w) (Object3D.scale g)) g) w ;;
    w <- (if isNull (materialRef w) then Ok w
          else
            w <- onMaterial (set_color (Visual.color (visualParams w))) w ;;
            w <- onMaterial (set_opacity (Visual.opacity (visualParams w))) w ;;
            w <- onMaterial (set_distort (Visual.distort (visualParams w))) w ;;
            onMaterial (set_speed (Audio.bpm (audioParams w) / 30)) w) ;;
    w <- (if isNull (wireframeRef w) then Ok w
          else
            w <- onWireframe (set_rotation_y (- elapsed * 0.1)) w ;;
            onWireframe (set_rotation_x (elapsed * 0.1)) w) ;;
    if AudioSystem.isReady (audioSystem w)
    then
      let w := set_tone (Tone.set_transportBpm (Audio.bpm (audioParams w)) (tone w)) w in
      w <- (if isSome (AudioSystem.distortion (audioSystem w))
            then onDistortion
                   (fun _ => {| Tone.distortion := Audio.distort (audioParams w) |}) w
            else Ok w) ;;
      if reverbAndWet (AudioSystem.reverb (audioSystem w))
      then onReverb (set_wet (Audio.reverbWet (audioParams w))) w
      else Ok w
    else Ok w.

(** The five objects the timeline animates, read from and written to the
    world. *)
Definition targetsOf (w : World) : gsap.Targets :=
  gsap.mkTargets (Object3D.position (group w)) (Object3D.rotation (group w))
                 (Object3D.scale (wireframe w)) (visualParams w) (audioParams w).

Definition writeTargets (ts : gsap.Targets) (w : World) : World :=
  let w := set_group (Object3D.set_rotation (gsap.groupRotation ts)
                        (Object3D.set_position (gsap.groupPosition ts) (group w))) w in
  let w := set_wireframe (Object3D.set_scale (gsap.wireframeScale ts) (wireframe w)) w in
  set_audioParams (gsap.audio ts) (set_visualParams (gsap.visual ts) w).

Definition contentScroll : gsap.ScrollTrigger :=
  {| gsap.trigger := "#content-container";
     gsap.start := "top top";
     gsap.end_ := "bottom bottom";
     gsap.scrub := 1 |}.

(** The tweens of the three stages.  The two revisions of the file differ
    in one literal, the visual distortion stage 2 ends at (1.5, and 1.0 in
    the second revision); every [ref.current] of the source is a [deref]
    here, in the order the source evaluates them. *)
Definition buildTimeline (stage2Distort : Q) (w : World) : result gsap.Timeline :=
  let tl := gsap.timeline contentScroll in
  (* Stage 1 *)
  position <- deref (groupRef w) gsap.GroupPosition ;;
  let tl := gsap.to position
              [("z", gsap.Num 1.5); ("x", gsap.Num 0.5); ("duration", gsap.Num 1)]
              None tl in
  let tl := gsap.fromTo gsap.VisualParams
              [("color", gsap.Str "#ffffff"); ("opacity", gsap.Num 0.5);
               ("distort", gsap.Num 0.3)]
              [("color", gsap.Str "#4ecdc4"); ("opacity", gsap.Num 0.8);
               ("distort", gsap.Num 0.8); ("duration", gsap.Num 1)]
              (Some "<") tl in
  rotation <- deref (groupRef w) gsap.GroupRotation ;;
  let tl := gsap.to rotation
              [("y", gsap.Num Math.PI); ("duration", gsap.Num 1)] (Some "<") tl in
  let tl := gsap.to gsap.AudioParams
              [("bpm", gsap.Num 100); ("duration", gsap.Num 1)] (Some "<") tl in
  (* Stage 2 *)
  position <- deref (groupRef w) gsap.GroupPosition ;;
  let tl := gsap.to position
              [("x", gsap.Num (-1.5)); ("duration", gsap.Num 1)] None tl in
  let tl := gsap.to gsap.VisualParams
              [("distort", gsap.Num stage2Distort); ("color", gsap.Str "#ff6b6b");
               ("opacity", gsap.Num 0.95); ("duration", gsap.Num 1)]
              (Some "<") tl in
  scale <- deref (wireframeRef w) gsap.WireframeScale ;;
  let tl := gsap.to scale
              [("x", gsap.Num 1.5); ("y", gsap.Num 1.5); ("z", gsap.Num 1.5);
               ("duration", gsap.Num 1)]
              (Some "<") tl in
  let tl := gsap.to gsap.AudioParams
              [("bpm", gsap.Num 180); ("distort", gsap.Num 0.8);
               ("duration", gsap.Num 1)]
              (Some "<") tl in
  (* Stage 3 *)
  position <- deref (groupRef w) gsap.GroupPosition ;;
  let tl := gsap.to position
              [("x", gsap.Num 0); ("z", gsap.Num 0); ("duration", gsap.Num 1)]
              None tl in
  let tl := gsap.to gsap.VisualParams
              [("distort", gsap.Num 0); ("color", gsap.Str "#ffffff");
               ("opacity", gsap.Num 0.3); ("duration", gsap.Num 1)]
              (Some "<") tl in
  scale <- deref (wireframeRef w) gsap.WireframeScale ;;
  let tl := gsap.to scale
              [("x", gsap.Num 1.05); ("y", gsap.Num 1.05); ("z", gsap.Num 1.05);
               ("duration", gsap.Num 1)]
              (Some "<") tl in
  let tl := gsap.to gsap.AudioParams
              [("bpm", gsap.Num 30); ("distort", gsap.Num 0);
               ("reverbWet", gsap.Num 1); ("duration", gsap.Num 1)]
              (Some "<") tl in
  Ok tl.

(** Keeping the timeline: the [fromTo] writes its [from] values at once,
    and the state of the targets at that moment is what every later
    rendering starts from. *)
Definition install (tl : gsap.Timeline) (w : World) : World :=
  let origin := gsap.immediateRender tl (targetsOf w) in
  set_timeline (Some (tl, origin)) (writeTargets origin w).

(** The callback of [useGSAP(() => ..., [])] of [src/App.tsx]. *)
Definition useGSAP (w : World) : result World :=
  if isNull (groupRef w) || isNull (wireframeRef w) then Ok w
  else
    tl <- buildTimeline 1.5 w ;;
    Ok (install tl w).

(** The second revision of the file: the wireframe ref is not tested, and
    stage 2 distorts to 1.0. *)
Module Part000.
Definition useGSAP (w : World) : result World :=
  if isNull (groupRef w) then Ok w
  else
    tl <- buildTimeline 1.0 w ;;
    Ok (install tl w).
End Part000.

(** The scroll position moves the playhead of the timeline, if one was
    built.  With [scrub: 1] the playhead takes up to a second to reach the
    scroll position; [onScroll] is the world once it has, and the worlds
    on the way there are not modelled. *)
Definition onScroll (progress : Q) (w : World) : World :=
  match timeline w with
  | Some (tl, origin) => writeTargets (gsap.scrubTo tl origin progress) w
  | None => w
  end.

(* ================================================================== *)
(** * The [App] component *)

(** [initAudio] is called without [await]; it is taken to have completed
    when [handleStart] returns. *)
Definition handleStart (w : World) : World :=
  set_started true (initAudio w).

(** [{!started && <div ... onClick={handleStart}>}]. *)
Definition overlayRendered (w : World) : bool := negb (started w).

Definition dispose (l : Tone.Loop) : Tone.Loop :=
  {| Tone.interval := Tone.interval l; Tone.startAt := Tone.startAt l;
     Tone.loopState := Tone.LoopDisposed |}.

(** The clean-up function returned by the effect of [App]. *)
Definition cleanup (w : World) : World :=
  (* Tone.Transport.stop(); Tone.Transport.cancel() *)
  let t := tone w in
  let w := set_tone (Tone.mk (Tone.contextRunning t) (Tone.transportBpm t)
                             Tone.Stopped false (Tone.connections t)
                             (Tone.compressor t) (Tone.lowPass t) (Tone.triggered t)) w in
  let w := match AudioSystem.loop (audioSystem w) with
           | Some l => set_audioSystem
                         (AudioSystem.set_loop (Some (dispose l)) (audioSystem w)) w
           | None => w
           end in
  set_audioSystem (AudioSystem.set_isReady false (audioSystem w)) w.

(** The first render of [App] and [Model]: fresh component state ([useState],
    [useRef]) and fresh scene objects built from the JSX.  The three refs
    are [ref] props of elements the tree always contains, and React
    attaches them when it commits the tree, before any effect or frame
    callback runs. *)
Definition firstRender (w : World) : World :=
  mkWorld (audioSystem w) (tone w) true false false
          Object3D.initialCamera Object3D.initialGroup Material.initial
          Object3D.initialWireframe Current Current Current
          1 Visual.initial Audio.initial None.

(** Mounting: the first render, then the effect of [Model]. *)
Definition mount (w : World) : World :=
  match useGSAP (firstRender w) with
  | Ok w' => w'
  | TypeError _ => firstRender w
  end.

Definition unmount (w : World) : World :=
  let w := cleanup w in
  mkWorld (audioSystem w) (tone w) false (started w) (beatSignalRef w)
          (camera w) (group w) (material w) (wireframe w)
          Null Null Null (currentScaleRef w) (visualParams w) (audioParams w) None.

(** What can happen to the page. *)
Inductive Event : Type :=
| Mount
| Unmount
| ClickOverlay
| Scroll (progress : Q)
| Frame (elapsed delta : Q)
| Beat (time : Q).

Definition loopRunning (w : World) : bool :=
  match AudioSystem.loop (audioSystem w), Tone.transportState (tone w) with
  | Some l, Tone.Started =>
      match Tone.loopState l with
      | Tone.LoopStarted => Tone.transportScheduled (tone w)
      | Tone.LoopDisposed => false
      end
  | _, _ => false
  end.

(** When an event can happen: the overlay can be clicked while it is
    rendered, a frame has a non-negative time step, the scroll fraction is
    between 0 and 1, and the loop ticks while it is scheduled on a running
    transport. *)
Definition enabled (e : Event) (w : World) : bool :=
  match e with
  | Mount => negb (mounted w)
  | Unmount => mounted w
  | ClickOverlay => mounted w && overlayRendered w
  | Scroll p => mounted w && Qle_bool 0 p && Qle_bool p 1
  | Frame _ delta => mounted w && Qle_bool 0 delta
  | Beat _ => loopRunning w
  end.

(** The world after the render loop has called the frame callback. *)
Definition frame (elapsed delta : Q) (w : World) : World :=
  match useFrame elapsed delta w with
  | Ok w' => w'
  | TypeError _ => w
  end.

Definition fire (e : Event) (w : World) : World :=
  match e with
  | Mount => mount w
  | Unmount => unmount w
  | ClickOverlay => handleStart w
  | Scroll p => onScroll p w
  | Frame elapsed delta => frame elapsed delta w
  | Beat time => loopCallback time w
  end.

Inductive reachable : World -> Prop :=
| reach_pageLoad : reachable pageLoad
| reach_fire (w : World) (e : Event) :
    reachable w -> enabled e w = true -> reachable (fire e w).

(** Running a list of events, skipping those that cannot happen. *)
Definition step (w : World) (e : Event) : World :=
  if enabled e w then fire e w else w.

Definition run (es : list Event) (w : World) : World := fold_left step es w.

(* ================================================================== *)
(** * Predicates on worlds *)

(** The fields no frame writes. *)
Definition frameKeeps (w w' : World) : Prop :=
  mounted w' = mounted w /\ started w' = started w /\ camera w' = camera w /\
  groupRef w' = groupRef w /\ materialRef w' = materialRef w /\
  wireframeRef w' = wireframeRef w /\
  visualParams w' = visualParams w /\ audioParams w' = audioParams w /\
  timeline w' = timeline w /\
  AudioSystem.isReady (audioSystem w') = AudioSystem.isReady (audioSystem w) /\
  AudioSystem.loop (audioSystem w') = AudioSystem.loop (audioSystem w) /\
  Tone.transportState (tone w') = Tone.transportState (tone w) /\
  Tone.transportScheduled (tone w') = Tone.transportScheduled (tone w) /\
  Tone.connections (tone w') = Tone.connections (tone w) /\
  Tone.triggered (tone w') = Tone.triggered (tone w) /\
  isSome (AudioSystem.distortion (audioSystem w')) =
    isSome (AudioSystem.distortion (audioSystem w)) /\
  isSome (AudioSystem.reverb (audioSystem w')) =
    isSome (AudioSystem.reverb (audioSystem w)).

(** The fields neither the timeline nor its installation writes. *)
Definition timelineKeeps (w w' : World) : Prop :=
  audioSystem w' = audioSystem w /\ tone w' = tone w /\
  mounted w' = mounted w /\ started w' = started w /\
  beatSignalRef w' = beatSignalRef w /\ camera w' = camera w /\
  material w' = material w /\
  Object3D.scale (group w') = Object3D.scale (group w) /\
  groupRef w' = groupRef w /\ materialRef w' = materialRef w /\
  wireframeRef w' = wireframeRef w /\
  currentScaleRef w' = currentScaleRef w.

(** What holds of every world the page can get into. *)
Record invariant (w : World) : Prop := mkInvariant
  { (* React attaches the refs of a mounted tree *)
    inv_refs : mounted w = true ->
      groupRef w = Current /\ materialRef w = Current /\ wireframeRef w = Current;
    (* the audio system is ready only after a click, with its nodes stored *)
    inv_ready : AudioSystem.isReady (audioSystem w) = true ->
      mounted w = true /\ started w = true /\
      isSome (AudioSystem.distortion (audioSystem w)) = true /\
      isSome (AudioSystem.reverb (audioSystem w)) = true;
    (* the transport runs exactly while the audio system is ready *)
    inv_transport : Tone.transportState (tone w) =
      if AudioSystem.isReady (audioSystem w) then Tone.Started else Tone.Stopped;
    (* the only loop ever stored ticks on quarter notes *)
    inv_loop : forall l, AudioSystem.loop (audioSystem w) = Some l ->
      Tone.interval l = "4n";
    inv_scale : 1 <= currentScaleRef w /\ currentScaleRef w <= 1.3;
    (* the group is scaled uniformly, by a value the heartbeat has taken *)
    inv_group : exists s, Object3D.scale (group w) = Vector3.mk s s s /\
                          1 <= s /\ s <= 1.3;
    inv_camera : camera w = Object3D.initialCamera }.

(** The tempo, colour and opacity of the tweened parameters. *)
Definition paramsAt (w : World) (bpm : Q) (color : string) (opacity : Q) : Prop :=
  Audio.bpm (audioParams w) = bpm /\
  Some (Visual.color (visualParams w)) = Color.parse color /\
  Visual.opacity (visualParams w) = opacity.

(** The four states a setup effect puts at the scroll fractions 0, 1/3,
    2/3 and 1 of a freshly rendered component. *)
Definition fourStages (setup : World -> result World) : Prop :=
  forall w0 : World, exists w tl origin,
    setup (firstRender w0) = Ok w /\
    timeline w = Some (tl, origin) /\
    gsap.totalDuration tl == 3 /\
    (* Resting *)
    paramsAt w 60 "#ffffff" 0.5 /\
    Visual.distort (visualParams w) = 0.3 /\
    paramsAt (onScroll 0 w) 60 "#ffffff" 0.5 /\
    Visual.distort (visualParams (onScroll 0 w)) = 0.3 /\
    (* Adrenaline *)
    paramsAt (onScroll (1 / 3) w) 100 "#4ecdc4" 0.8 /\
    Visual.distort (visualParams (onScroll (1 / 3) w)) = 0.8 /\
    (* Panic *)
    paramsAt (onScroll (2 / 3) w) 180 "#ff6b6b" 0.95 /\
    Audio.distort (audioParams (onScroll (2 / 3) w)) = 0.8 /\
    (* Flatline *)
    paramsAt (onScroll 1 w) 30 "#ffffff" 0.3 /\
    Visual.distort (visualParams (onScroll 1 w)) = 0 /\
    Audio.distort (audioParams (onScroll 1 w)) = 0 /\
    Audio.reverbWet (audioParams (onScroll 1 w)) = 1.


(** Properties, each named once, in the order they are first animated. *)
Definition sameProperty (a b : gsap.Target * string) : bool :=
  gsap.Target_eqb (fst a) (fst b) && (snd a =? snd b)%string.

Fixpoint distinct (l : list (gsap.Target * string)) : list (gsap.Target * string) :=
  match l with
  | [] => []
  | a :: rest => a :: filter (fun b => negb (sameProperty a b)) (distinct rest)
  end.

(** The properties animated by the timeline the world holds. *)
Definition tweened (w : World) : list (gsap.Target * string) :=
  match timeline w with
  | Some (tl, _) => distinct (gsap.tweenedProperties tl)
  | None => []
  end.

(** Whether a tween target is one of the two parameter records (and not an
    object of the scene graph). *)
Definition isParameterRecord (p : gsap.Target * string) : bool :=
  match fst p with
  | gsap.VisualParams | gsap.AudioParams => true
  | _ => false
  end.

(** A colour, an opacity, a distortion and a tempo. *)
Definition fourParameters : list (gsap.Target * string) :=
  [ (gsap.VisualParams, "color"); (gsap.VisualParams, "opacity");
    (gsap.VisualParams, "distort"); (gsap.AudioParams, "bpm") ].

(** Worlds used as examples: the page mounted; started by a click; started
    and scrolled to the end of the first stage; started, with a beat
    pending. *)
Definition mountedPage : World := run [Mount] pageLoad.
Definition startedPage : World := run [Mount; ClickOverlay] pageLoad.
Definition scrolledPage : World := run [Mount; ClickOverlay; Scroll (1 / 3)] pageLoad.
Definition beatingPage : World := run [Mount; ClickOverlay; Beat 0] pageLoad.

(* ================================================================== *)
(** * Ranges, pulses and further example worlds *)

(** The timeline every mount builds, with the state of its targets at that
    moment. *)
Definition sceneTimeline : gsap.Timeline * gsap.Targets :=
  match timeline (mount pageLoad) with
  | Some p => p
  | None => (gsap.timeline contentScroll, targetsOf pageLoad)
  end.

(** Closed intervals, and vectors with three equal components. *)
Definition between (lo v hi : Q) : Prop := lo <= v /\ v <= hi.

Definition uniform (v : Vector3.t) : Prop :=
  Vector3.x v = Vector3.y v /\ Vector3.y v = Vector3.z v.

(** The library writes the numbers it animates rounded to six decimals,
    [Math.round(v * 1000000) / 1000000]; [gsap.mixNum] is the exact value
    before that rounding. *)
Definition round6 (q : Q) : Q := inject_Z (gsap.round (q * 1000000)) / 1000000.

Definition roundVec (v : Vector3.t) : Vector3.t :=
  Vector3.mk (round6 (Vector3.x v)) (round6 (Vector3.y v)) (round6 (Vector3.z v)).

(** The targets with every number rounded as it is written. *)
Definition written (ts : gsap.Targets) : gsap.Targets :=
  gsap.mkTargets
    (roundVec (gsap.groupPosition ts)) (roundVec (gsap.groupRotation ts))
    (roundVec (gsap.wireframeScale ts))
    (Visual.mk (Visual.color (gsap.visual ts))
               (round6 (Visual.distort (gsap.visual ts)))
               (round6 (Visual.opacity (gsap.visual ts))))
    (Audio.mk (round6 (Audio.bpm (gsap.audio ts)))
              (round6 (Audio.distort (gsap.audio ts)))
              (round6 (Audio.reverbWet (gsap.audio ts)))).

(** The ranges the timeline keeps its targets in.  The bound of the
    rotation is pi rounded to six decimals, the largest value the tween to
    [Math.PI] writes. *)
Definition inRange (ts : gsap.Targets) : Prop :=
  between 30 (Audio.bpm (gsap.audio ts)) 180 /\
  between 0 (Audio.distort (gsap.audio ts)) 0.8 /\
  between 0.3 (Audio.reverbWet (gsap.audio ts)) 1 /\
  between 0.3 (Visual.opacity (gsap.visual ts)) 0.95 /\
  between 0 (Visual.distort (gsap.visual ts)) 1.5 /\
  between (-1.5) (Vector3.x (gsap.groupPosition ts)) 0.5 /\
  Vector3.y (gsap.groupPosition ts) == 0 /\
  between 0 (Vector3.z (gsap.groupPosition ts)) 1.5 /\
  Vector3.x (gsap.groupRotation ts) == 0 /\
  between 0 (Vector3.y (gsap.groupRotation ts)) 3.141593 /\
  Vector3.z (gsap.groupRotation ts) == 0 /\
  uniform (gsap.wireframeScale ts) /\
  between 1.05 (Vector3.x (gsap.wireframeScale ts)) 1.5.

(** Ranges of what the page shows and plays. *)
Record tuned (w : World) : Prop := mkTuned
  { tuned_timeline : mounted w = true -> timeline w = Some sceneTimeline;
    tuned_targets : inRange (targetsOf w);
    tuned_tempo : between 30 (Tone.transportBpm (tone w)) 180;
    tuned_distortion : forall d, AudioSystem.distortion (audioSystem w) = Some d ->
                                 between 0 (Tone.distortion d) 0.8;
    tuned_reverb : forall r, AudioSystem.reverb (audioSystem w) = Some r ->
                             between 0.3 (Tone.wet r) 1;
    tuned_opacity : between 0.3 (Material.opacity (material w)) 0.95;
    tuned_distort : between 0 (Material.distort (material w)) 1.5;
    tuned_cage : Vector3.z (Object3D.rotation (wireframe w)) = 0 /\
                 Object3D.position (wireframe w) = Object3D.origin }.

(** The fraction of a pulse that is left after frames with the given time
    steps. *)
Fixpoint decay (deltas : list Q) : Q :=
  match deltas with
  | [] => 1
  | d :: rest => (1 - Math.min d 0.1 * 8) * decay rest
  end.

(** Frames one after the other, each given as (elapsed, delta). *)
Definition frames (fs : list (Q * Q)) (w : World) : World :=
  fold_left (fun w f => frame (fst f) (snd f) w) fs w.

(** What the canvas shows of the heartbeat. *)
Definition pulse (w : World) : Q * Object3D.t * bool :=
  (currentScaleRef w, group w, beatSignalRef w).

(** The page scrolled to the end of the second stage before any click, and
    the page played to the end and then unmounted. *)
Definition panicPage : World := run [Mount; Scroll (2 / 3)] pageLoad.
Definition leftPage : World :=
  run [Mount; ClickOverlay; Scroll 1; Beat 0; Unmount] pageLoad.

(** A world with its refs as given, for the cases React never produces. *)
Definition withRefs (g m wf : RefSlot) (w : World) : World :=
  mkWorld (audioSystem w) (tone w) (mounted w) (started w) (beatSignalRef w)
          (camera w) (group w) (material w) (wireframe w) g m wf
          (currentScaleRef w) (visualParams w) (audioParams w) (timeline w).

(* ================================================================== *)
(** * What one frame does *)

Ltac split_all := repeat match goal with |- _ /\ _ => split end.

(** Naming the components of a world a frame branches on. *)
Ltac open_world w :=
  destruct w as [[heart blood distortion reverb loop isReady]
                 [ctx tbpm tstate tsched conns comp lowp trig]
                 mounted started beat camera group material wireframe
                 gRef mRef wRef scale visual audio tl];
  cbn in *.

Ltac frame_cases g m w b i d r :=
  destruct g, m, w, b, i, d, r; cbn.

Lemma useFrame_keeps (elapsed delta : Q) (w : World) :
  exists w', useFrame elapsed delta w = Ok w' /\ frameKeeps w w'.
Proof.
  open_world w.
  unfold useFrame, frameKeeps; cbn.
  frame_cases gRef mRef wRef beat isReady distortion reverb;
    eexists; (split; [reflexivity | cbn; split_all; reflexivity]).
Qed.

Lemma frame_keeps (elapsed delta : Q) (w : World) :
  frameKeeps w (frame elapsed delta w).
Proof.
  unfold frame.
  destruct (useFrame_keeps elapsed delta w) as [w' [-> H]]. exact H.
Qed.

Lemma useFrame_group_null (elapsed delta : Q) (w : World) :
  groupRef w = Null -> useFrame elapsed delta w = Ok w.
Proof. intros H. unfold useFrame. rewrite H. reflexivity. Qed.

(** The heartbeat: the scale value a frame leaves, and where it goes. *)
Lemma frame_scale (elapsed delta : Q) (w : World) :
  groupRef w = Current ->
  let s := MathUtils.lerp (if beatSignalRef w then 1.3 else currentScaleRef w) 1
                          (Math.min delta 0.1 * 8) in
  currentScaleRef (frame elapsed delta w) = s /\
  beatSignalRef (frame elapsed delta w) = false /\
  Object3D.scale (group (frame elapsed delta w)) = Vector3.mk s s s /\
  Object3D.position (group (frame elapsed delta w)) = Object3D.position (group w) /\
  Object3D.rotation (group (frame elapsed delta w)) = Object3D.rotation (group w).
Proof.
  open_world w. intros ->.
  unfold frame, useFrame; cbn.
  destruct mRef, wRef, beat, isReady, distortion, reverb; cbn;
    split_all; reflexivity.
Qed.

(** The material: the four assignments of the callback. *)
Lemma frame_material (elapsed delta : Q) (w : World) :
  groupRef w = Current -> materialRef w = Current ->
  material (frame elapsed delta w) =
    Material.mk (Visual.color (visualParams w)) (Visual.opacity (visualParams w))
                (Visual.distort (visualParams w)) (Audio.bpm (audioParams w) / 30).
Proof.
  open_world w. intros -> ->.
  unfold frame, useFrame; cbn.
  destruct wRef, beat, isReady, distortion, reverb; cbn; reflexivity.
Qed.

(** The audio graph while the audio system is ready... *)
Lemma frame_audio_ready (elapsed delta : Q) (w : World) :
  groupRef w = Current -> AudioSystem.isReady (audioSystem w) = true ->
  Tone.transportBpm (tone (frame elapsed delta w)) = Audio.bpm (audioParams w) /\
  AudioSystem.distortion (audioSystem (frame elapsed delta w)) =
    option_map (fun _ => {| Tone.distortion := Audio.distort (audioParams w) |})
               (AudioSystem.distortion (audioSystem w)) /\
  AudioSystem.reverb (audioSystem (frame elapsed delta w)) =
    option_map (set_wet (Audio.reverbWet (audioParams w)))
               (AudioSystem.reverb (audioSystem w)).
Proof.
  open_world w. intros -> ->.
  unfold frame, useFrame; cbn.
  destruct mRef, wRef, beat, distortion, reverb; cbn; split_all; reflexivity.
Qed.

(** ... and while it is not. *)
Lemma frame_audio_idle (elapsed delta : Q) (w : World) :
  AudioSystem.isReady (audioSystem w) = false ->
  tone (frame elapsed delta w) = tone w /\
  audioSystem (frame elapsed delta w) = audioSystem w.
Proof.
  open_world w. intros ->.
  unfold frame, useFrame; cbn.
  destruct gRef, mRef, wRef, beat; cbn; split; reflexivity.
Qed.

(* ================================================================== *)
(** * What the other events do *)

Lemma buildTimeline_attached (d : Q) (w : World) :
  groupRef w = Current -> wireframeRef w = Current ->
  exists tl, buildTimeline d w = Ok tl.
Proof.
  intros Hg Hw. unfold buildTimeline. rewrite Hg, Hw.
  cbn [deref bind]. eexists. reflexivity.
Qed.

(** The setup effect either leaves the world alone or installs a timeline. *)
Lemma useGSAP_cases (w : World) :
  useGSAP w = Ok w \/ exists tl, useGSAP w = Ok (install tl w).
Proof.
  unfold useGSAP.
  destruct (groupRef w) eqn:Hg; cbn [isNull orb]; [now left |].
  destruct (wireframeRef w) eqn:Hw; cbn [isNull orb]; [now left |].
  destruct (buildTimeline_attached 1.5 w Hg Hw) as [tl ->].
  right. exists tl. reflexivity.
Qed.

Lemma writeTargets_keeps (ts : gsap.Targets) (w : World) :
  timelineKeeps w (writeTargets ts w).
Proof. open_world w. unfold timelineKeeps; cbn. split_all; reflexivity. Qed.

Lemma install_keeps (line : gsap.Timeline) (w : World) :
  timelineKeeps w (install line w).
Proof.
  unfold install.
  generalize (gsap.immediateRender line (targetsOf w)); intros ts.
  open_world w. unfold timelineKeeps; cbn. split_all; reflexivity.
Qed.

Lemma timelineKeeps_refl (w : World) : timelineKeeps w w.
Proof. unfold timelineKeeps. split_all; reflexivity. Qed.

Lemma onScroll_keeps (p : Q) (w : World) : timelineKeeps w (onScroll p w).
Proof.
  unfold onScroll. destruct (timeline w) as [[tl origin] |].
  - apply writeTargets_keeps.
  - apply timelineKeeps_refl.
Qed.

Lemma mount_keeps (w : World) : timelineKeeps (firstRender w) (mount w).
Proof.
  unfold mount.
  destruct (useGSAP_cases (firstRender w)) as [-> | [tl ->]].
  - apply timelineKeeps_refl.
  - apply install_keeps.
Qed.

(* ================================================================== *)
(** * Arithmetic of the heartbeat *)

Lemma min_le_r (a b : Q) : Math.min a b <= b.
Proof.
  unfold Math.min. destruct (Qle_bool a b) eqn:E.
  - now apply Qle_bool_iff.
  - apply Qle_refl.
Qed.

Lemma min_nonneg (a b : Q) : 0 <= a -> 0 <= b -> 0 <= Math.min a b.
Proof. intros Ha Hb. unfold Math.min. now destruct (Qle_bool a b). Qed.

(** The interpolation factor of a frame is at most 0.8, whatever the time
    step. *)
Lemma factor_le (delta : Q) : Math.min delta 0.1 * 8 <= 0.8.
Proof. pose proof (min_le_r delta 0.1). lra. Qed.

Lemma factor_nonneg (delta : Q) : 0 <= delta -> 0 <= Math.min delta 0.1 * 8.
Proof.
  intros H. assert (0 <= Math.min delta 0.1) by (apply min_nonneg; lra). lra.
Qed.

(** Interpolating towards 1 with a factor in [0, 1] stays between 1 and
    the value interpolated from. *)
Lemma lerp_towards_one (s t : Q) :
  1 <= s -> 0 <= t -> t <= 1 ->
  1 <= MathUtils.lerp s 1 t /\ MathUtils.lerp s 1 t <= s.
Proof. unfold MathUtils.lerp. intros Hs Ht0 Ht1. split; nra. Qed.

Lemma frame_scale_bounds (s delta : Q) (beat : bool) :
  1 <= s -> s <= 1.3 -> 0 <= delta ->
  let s' := MathUtils.lerp (if beat then 1.3 else s) 1 (Math.min delta 0.1 * 8) in
  1 <= s' /\ s' <= 1.3.
Proof.
  intros Hlo Hhi Hd s'.
  pose proof (factor_le delta) as Hf. pose proof (factor_nonneg delta Hd) as Hn.
  assert (Hb : 1 <= (if beat then 1.3 else s) /\ (if beat then 1.3 else s) <= 1.3)
    by (destruct beat; split; lra).
  destruct Hb as [Hb1 Hb2].
  destruct (lerp_towards_one (if beat then 1.3 else s) (Math.min delta 0.1 * 8))
    as [H1 H2]; try lra.
  subst s'. split; lra.
Qed.

(* ================================================================== *)
(** * Invariants of the page *)

Lemma invariant_pageLoad : invariant pageLoad.
Proof.
  constructor; cbn; try discriminate; try reflexivity.
  - split; lra.
  - exists 1. split; [reflexivity | split; lra].
Qed.

Lemma invariant_mount (w : World) :
  invariant w -> enabled Mount w = true -> invariant (mount w).
Proof.
  intros I En. cbn in En. apply negb_true_iff in En.
  assert (Hr : AudioSystem.isReady (audioSystem w) = false).
  { destruct (AudioSystem.isReady (audioSystem w)) eqn:E; [| reflexivity].
    destruct (inv_ready w I E) as [Hm _]. congruence. }
  destruct (mount_keeps w)
    as (Ha & Ht & Hm & Hs & _ & Hc & _ & Hgs & Hg & Hmr & Hw & Hsc).
  constructor.
  - intros _. rewrite Hg, Hmr, Hw. cbn. auto.
  - rewrite Ha. cbn. rewrite Hr. discriminate.
  - rewrite Ha, Ht. cbn. apply (inv_transport w I).
  - rewrite Ha. cbn. apply (inv_loop w I).
  - rewrite Hsc. cbn. split; lra.
  - rewrite Hgs. cbn. exists 1. split; [reflexivity | split; lra].
  - rewrite Hc. reflexivity.
Qed.

Lemma invariant_unmount (w : World) : invariant w -> invariant (unmount w).
Proof.
  intros I. pose proof (inv_loop w I) as Hl.
  pose proof (inv_scale w I) as Hs. pose proof (inv_camera w I) as Hc.
  pose proof (inv_group w I) as Hgs.
  open_world w.
  destruct loop as [l |];
    constructor; unfold unmount, cleanup; cbn; try discriminate; auto.
  intros l' E. injection E as <-. cbn. now apply Hl.
Qed.

Lemma invariant_click (w : World) :
  invariant w -> enabled ClickOverlay w = true -> invariant (handleStart w).
Proof.
  intros I En. cbn in En. apply andb_true_iff in En as [Hm Ho].
  unfold overlayRendered in Ho. apply negb_true_iff in Ho.
  assert (Hr : AudioSystem.isReady (audioSystem w) = false).
  { destruct (AudioSystem.isReady (audioSystem w)) eqn:E; [| reflexivity].
    destruct (inv_ready w I E) as (_ & Hs & _). congruence. }
  pose proof (inv_refs w I) as Hrefs.
  pose proof (inv_scale w I) as Hs. pose proof (inv_camera w I) as Hc.
  pose proof (inv_group w I) as Hgs.
  open_world w. subst.
  constructor; unfold handleStart, initAudio; cbn; auto.
  intros l E. injection E as <-. reflexivity.
Qed.

Lemma invariant_scroll (p : Q) (w : World) : invariant w -> invariant (onScroll p w).
Proof.
  intros I.
  destruct (onScroll_keeps p w)
    as (Ha & Ht & Hm & Hs & _ & Hc & _ & Hgs & Hg & Hmr & Hw & Hsc).
  constructor; rewrite ?Ha, ?Ht, ?Hm, ?Hs, ?Hc, ?Hgs, ?Hg, ?Hmr, ?Hw, ?Hsc; apply I.
Qed.

Lemma invariant_frame (elapsed delta : Q) (w : World) :
  invariant w -> enabled (Frame elapsed delta) w = true ->
  invariant (frame elapsed delta w).
Proof.
  intros I En. cbn in En. apply andb_true_iff in En as [Hm Hd].
  apply Qle_bool_iff in Hd.
  destruct (inv_refs w I Hm) as (Hg & _).
  destruct (frame_keeps elapsed delta w)
    as (Km & Ks & Kc & Kg & Kmr & Kw & _ & _ & _ & Kr & Kl & Kt & _ & _ & _ & Kd & Krv).
  destruct (frame_scale elapsed delta w Hg) as (Hsc & _ & Hgs & _).
  destruct (inv_scale w I) as [Hlo Hhi].
  constructor; rewrite ?Km, ?Ks, ?Kc, ?Kg, ?Kmr, ?Kw, ?Kr, ?Kl, ?Kt, ?Kd, ?Krv;
    try apply I.
  - rewrite Hsc. now apply frame_scale_bounds.
  - rewrite Hgs. eexists. split; [reflexivity |]. now apply frame_scale_bounds.
Qed.

Lemma invariant_beat (time : Q) (w : World) : invariant w -> invariant (loopCallback time w).
Proof.
  intros [I1 I2 I3 I4 I5 I6 I7]. open_world w.
  constructor; unfold loopCallback; cbn; assumption.
Qed.

Theorem reachable_invariant (w : World) : reachable w -> invariant w.
Proof.
  induction 1 as [| w e _ IH En].
  - apply invariant_pageLoad.
  - destruct e; cbn [fire].
    + now apply invariant_mount.
    + now apply invariant_unmount.
    + now apply invariant_click.
    + now apply invariant_scroll.
    + now apply invariant_frame.
    + now apply invariant_beat.
Qed.

(** Worlds reached by running events are reachable. *)
Lemma reachable_step (w : World) (e : Event) : reachable w -> reachable (step w e).
Proof.
  intros H. unfold step. destruct (enabled e w) eqn:E; [| exact H].
  now apply reach_fire.
Qed.

Lemma reachable_run (es : list Event) (w : World) : reachable w -> reachable (run es w).
Proof.
  revert w. induction es as [| e es IH]; intros w H; cbn; [exact H |].
  apply IH. now apply reachable_step.
Qed.

Lemma reachable_mountedPage : reachable mountedPage.
Proof. apply reachable_run, reach_pageLoad. Qed.
Lemma reachable_startedPage : reachable startedPage.
Proof. apply reachable_run, reach_pageLoad. Qed.
Lemma reachable_scrolledPage : reachable scrolledPage.
Proof. apply reachable_run, reach_pageLoad. Qed.
Lemma reachable_beatingPage : reachable beatingPage.
Proof. apply reachable_run, reach_pageLoad. Qed.

(* ================================================================== *)
(** * The timeline stages *)

Lemma fourStages_useGSAP : fourStages useGSAP.
Proof.
  intros w0. eexists. eexists. eexists.
  split; [vm_compute; reflexivity |].
  split; [vm_compute; reflexivity |].
  vm_compute. repeat split; reflexivity.
Qed.

Lemma fourStages_Part000 : fourStages Part000.useGSAP.
Proof.
  intros w0. eexists. eexists. eexists.
  split; [vm_compute; reflexivity |].
  split; [vm_compute; reflexivity |].
  vm_compute. repeat split; reflexivity.
Qed.

(** C1.  In both revisions of the file the timeline, three units long,
    takes the tweened parameters through four states as the scroll
    fraction goes through 0, 1/3, 2/3 and 1: Resting (bpm 60, colour
    #ffffff, opacity 0.5, distort 0.3), then bpm 100, #4ecdc4, opacity 0.8,
    distort 0.8, then bpm 180, #ff6b6b, opacity 0.95, audio distortion
    0.8, then bpm 30, #ffffff, opacity 0.3, distort 0, reverb wet 1. *)
Theorem timeline_four_stages : fourStages useGSAP /\ fourStages Part000.useGSAP.
Proof. split; [apply fourStages_useGSAP | apply fourStages_Part000]. Qed.

(* ================================================================== *)
(** * The per-frame callback *)

(** C2.  In every frame in which the material ref is non-null the callback
    leaves on the material the colour, opacity and distortion of the
    tweened parameters and the speed bpm/30, and, when the audio system is
    ready, leaves the tempo on the transport, the distortion amount on the
    distortion node and the wet level on the reverb. *)
Theorem frame_copies_parameters (w : World) (elapsed delta : Q) :
  reachable w ->
  enabled (Frame elapsed delta) w = true ->
  materialRef w = Current ->
  let w' := fire (Frame elapsed delta) w in
  Material.color (material w') = Visual.color (visualParams w) /\
  Material.opacity (material w') = Visual.opacity (visualParams w) /\
  Material.distort (material w') = Visual.distort (visualParams w) /\
  Material.speed (material w') = Audio.bpm (audioParams w) / 30 /\
  (AudioSystem.isReady (audioSystem w) = true ->
   Tone.transportBpm (tone w') = Audio.bpm (audioParams w) /\
   (exists d, AudioSystem.distortion (audioSystem w') = Some d /\
              Tone.distortion d = Audio.distort (audioParams w)) /\
   (exists r, AudioSystem.reverb (audioSystem w') = Some r /\
              Tone.wet r = Audio.reverbWet (audioParams w))).
Proof.
  intros R En Hm w'. subst w'. cbn [fire].
  pose proof (reachable_invariant w R) as I.
  cbn in En. apply andb_true_iff in En as [Hmt _].
  destruct (inv_refs w I Hmt) as (Hg & _ & _).
  rewrite (frame_material elapsed delta w Hg Hm). cbn.
  split_all; try reflexivity.
  intros Hr.
  destruct (frame_audio_ready elapsed delta w Hg Hr) as (Hb & Hd & Hrv).
  destruct (inv_ready w I Hr) as (_ & _ & Sd & Sr).
  rewrite Hb, Hd, Hrv.
  destruct (AudioSystem.distortion (audioSystem w)) as [d |]; [| discriminate].
  destruct (AudioSystem.reverb (audioSystem w)) as [r |]; [| discriminate].
  cbn. split_all; [reflexivity | eexists; split; reflexivity
                  | eexists; split; reflexivity].
Qed.

Lemma frame_copies_parameters_witness :
  reachable scrolledPage /\
  enabled (Frame 0 (1 / 60)) scrolledPage = true /\
  materialRef scrolledPage = Current /\
  Material.speed (material (fire (Frame 0 (1 / 60)) scrolledPage)) = 100 / 30 /\
  Tone.transportBpm (tone (fire (Frame 0 (1 / 60)) scrolledPage)) = 100.
Proof.
  pose proof (frame_copies_parameters scrolledPage 0 (1 / 60)
                reachable_scrolledPage eq_refl eq_refl) as H.
  cbv zeta in H. destruct H as (_ & _ & _ & Hs & Ha).
  destruct (Ha eq_refl) as (Hb & _).
  split; [exact reachable_scrolledPage |].
  split; [reflexivity |]. split; [reflexivity |].
  split; [exact Hs | exact Hb].
Defined.

(* ================================================================== *)
(** * The heartbeat *)

Lemma beat_enabled_loop (w : World) (time : Q) :
  enabled (Beat time) w = true ->
  exists l, AudioSystem.loop (audioSystem w) = Some l.
Proof.
  cbn. unfold loopRunning.
  destruct (AudioSystem.loop (audioSystem w)) as [l |]; [eauto | discriminate].
Qed.

Lemma loopCallback_effect (time : Q) (w : World) :
  Tone.triggered (tone (loopCallback time w)) =
    (Tone.triggered (tone w) ++
       [Tone.HeartTrigger "C0" "4n" time; Tone.BloodTrigger "8n" time])%list /\
  beatSignalRef (loopCallback time w) = true.
Proof.
  open_world w. unfold loopCallback; cbn.
  rewrite <- app_assoc. split; reflexivity.
Qed.

(** C3, as stated, fails: one sixtieth of a second after a beat the frame
    callback has cleared the flag, but the scale it puts on the mesh group
    is 1.26, not 1.3. *)
Lemma beat_frame_scale_is_not_1_3 :
  beatSignalRef beatingPage = true /\
  enabled (Frame 0 (1 / 60)) beatingPage = true /\
  beatSignalRef (fire (Frame 0 (1 / 60)) beatingPage) = false /\
  Vector3.x (Object3D.scale (group (fire (Frame 0 (1 / 60)) beatingPage))) == 1.26 /\
  ~ Vector3.x (Object3D.scale (group (fire (Frame 0 (1 / 60)) beatingPage))) == 1.3.
Proof.
  split; [reflexivity |]. split; [reflexivity |]. split; [reflexivity |].
  split; vm_compute; [reflexivity | discriminate].
Qed.

(** C3, amended.  On every tick of the quarter-note loop the heart synth
    and the blood synth are triggered and the beat flag is set; in the
    next frame that finds the flag set, the callback sets the heartbeat
    scale value to 1.3, clears the flag and, still in that frame, eases the
    value towards 1 by the factor 8 * min(delta, 0.1) before it puts it on
    the mesh group: the group's scale becomes 1.3 - 0.3 * 8 * min(delta,
    0.1), which lies between 1.06 and 1.3 and is 1.3 only when delta is
    0. *)
Theorem heartbeat_reaction (w : World) :
  reachable w ->
  (forall time, enabled (Beat time) w = true ->
     (exists l, AudioSystem.loop (audioSystem w) = Some l /\ Tone.interval l = "4n") /\
     Tone.triggered (tone (fire (Beat time) w)) =
       (Tone.triggered (tone w) ++
          [Tone.HeartTrigger "C0" "4n" time; Tone.BloodTrigger "8n" time])%list /\
     beatSignalRef (fire (Beat time) w) = true) /\
  (forall elapsed delta,
     enabled (Frame elapsed delta) w = true -> beatSignalRef w = true ->
     let w' := fire (Frame elapsed delta) w in
     let s := MathUtils.lerp 1.3 1 (Math.min delta 0.1 * 8) in
     beatSignalRef w' = false /\
     currentScaleRef w' = s /\
     Object3D.scale (group w') = Vector3.mk s s s /\
     s == 1.3 - 0.3 * (8 * Math.min delta 0.1) /\
     1.06 <= s /\ s <= 1.3 /\
     (s == 1.3 -> delta == 0)).
Proof.
  intros R. pose proof (reachable_invariant w R) as I. split.
  - intros time En.
    destruct (beat_enabled_loop w time En) as [l Hl].
    split; [exists l; split; [exact Hl | exact (inv_loop w I l Hl)] |].
    cbn [fire]. apply loopCallback_effect.
  - intros elapsed delta En Hb w' s. subst w'. cbn [fire].
    cbn in En. apply andb_true_iff in En as [Hm Hd]. apply Qle_bool_iff in Hd.
    destruct (inv_refs w I Hm) as (Hg & _).
    destruct (frame_scale elapsed delta w Hg) as (Hs & Hf & Hgs & _).
    rewrite Hb in Hs, Hgs. fold s in Hs, Hgs.
    pose proof (factor_le delta) as Hle.
    pose proof (factor_nonneg delta Hd) as Hge.
    split_all; try assumption.
    + subst s. unfold MathUtils.lerp. ring.
    + subst s. unfold MathUtils.lerp. lra.
    + subst s. unfold MathUtils.lerp. lra.
    + subst s. unfold MathUtils.lerp. intros E.
      assert (Hz : Math.min delta 0.1 == 0) by lra.
      revert Hz. unfold Math.min. destruct (Qle_bool delta 0.1); intros Hz;
        [exact Hz | lra].
Qed.

Lemma heartbeat_reaction_witness :
  reachable startedPage /\
  enabled (Beat 0) startedPage = true /\
  beatSignalRef (fire (Beat 0) startedPage) = true /\
  reachable beatingPage /\
  enabled (Frame 0 (1 / 60)) beatingPage = true /\
  beatSignalRef beatingPage = true /\
  beatSignalRef (fire (Frame 0 (1 / 60)) beatingPage) = false.
Proof.
  destruct (heartbeat_reaction startedPage reachable_startedPage) as [Hbeat _].
  destruct (heartbeat_reaction beatingPage reachable_beatingPage) as [_ Hframe].
  destruct (Hbeat 0 eq_refl) as (_ & _ & Hflag).
  pose proof (Hframe 0 (1 / 60) eq_refl eq_refl) as H. cbv zeta in H.
  destruct H as (Hclear & _).
  split; [exact reachable_startedPage |]. split; [reflexivity |].
  split; [exact Hflag |].
  split; [exact reachable_beatingPage |]. split; [reflexivity |].
  split; [reflexivity | exact Hclear].
Defined.

(* ================================================================== *)
(** * Null checks *)

Lemma useFrame_succeeds (elapsed delta : Q) (w : World) :
  succeeds (useFrame elapsed delta w).
Proof.
  destruct (useFrame_keeps elapsed delta w) as [w' [H _]]. now exists w'.
Qed.

Lemma useGSAP_succeeds (w : World) : succeeds (useGSAP w).
Proof.
  destruct (useGSAP_cases w) as [H | [tl H]]; rewrite H; eexists; reflexivity.
Qed.

(** A mutation through a ref that is not tested does fail on [null]. *)
Lemma onGroup_null (f : Object3D.t -> Object3D.t) (w : World) :
  groupRef w = Null -> ~ succeeds (onGroup f w).
Proof.
  intros H [w' E]. unfold onGroup in E. rewrite H in E. discriminate.
Qed.

(** The second revision of the setup effect tests the group ref only, and
    fails when the wireframe ref alone is [null]. *)
Lemma Part000_useGSAP_wireframe_null (w : World) :
  groupRef w = Current -> wireframeRef w = Null ->
  ~ succeeds (Part000.useGSAP w).
Proof.
  intros Hg Hw [w' E]. unfold Part000.useGSAP, buildTimeline in E.
  rewrite Hg, Hw in E. cbn [isNull deref bind] in E. discriminate.
Qed.

(** C4.  Whatever refs and audio nodes are [null], neither the per-frame
    callback nor the timeline setup dereferences a [null]: each mutation of
    the group, the material, the wireframe, the distortion and the reverb
    is behind a test of its reference. *)
Theorem null_checks_guard_mutations :
  (forall (w : World) (elapsed delta : Q), succeeds (useFrame elapsed delta w)) /\
  (forall w : World, succeeds (useGSAP w)).
Proof.
  split.
  - intros w elapsed delta. apply useFrame_succeeds.
  - apply useGSAP_succeeds.
Qed.

(* ================================================================== *)
(** * What moves while the page scrolls *)

(** C5, as stated, fails: at the ends of the four stages the camera is at
    the same place, (0, 0, 5), while the tempo has gone through 60, 100,
    180 and 30. *)
Lemma camera_does_not_move_with_scroll :
  map (fun p => Object3D.position (camera (run [Scroll p] mountedPage)))
      [0; 1 / 3; 2 / 3; 1]
  = [Vector3.mk 0 0 5; Vector3.mk 0 0 5; Vector3.mk 0 0 5; Vector3.mk 0 0 5] /\
  map (fun p => Audio.bpm (audioParams (run [Scroll p] mountedPage)))
      [0; 1 / 3; 2 / 3; 1]
  = [60; 100; 180; 30].
Proof. split; vm_compute; reflexivity. Qed.

(** C5, amended.  What moves in synchrony with the colour, distortion and
    sound parameters is the mesh group, not the camera: the camera stays
    at (0, 0, 5) in every reachable state, and the timeline takes the
    group from (0, 0, 0) to (0.5, 0, 1.5), then to (-1.5, 0, 1.5), then
    back to (0, 0, 0). *)
Theorem camera_still_group_moves :
  (forall w : World, reachable w ->
     Object3D.position (camera w) = Vector3.mk 0 0 5) /\
  (forall w0 : World,
     map (fun p => Object3D.position (group (onScroll p (mount w0))))
         [0; 1 / 3; 2 / 3; 1]
     = [Vector3.mk 0 0 0; Vector3.mk 0.5 0 1.5; Vector3.mk (-1.5) 0 1.5;
        Vector3.mk 0 0 0]).
Proof.
  split.
  - intros w R. rewrite (inv_camera w (reachable_invariant w R)). reflexivity.
  - intros w0. vm_compute. reflexivity.
Qed.

Lemma camera_still_group_moves_witness :
  reachable scrolledPage /\
  Object3D.position (camera scrolledPage) = Vector3.mk 0 0 5.
Proof.
  split; [exact reachable_scrolledPage |].
  exact (proj1 camera_still_group_moves scrolledPage reachable_scrolledPage).
Defined.

(** C6, as stated, fails: the timeline also animates the reverb wet level
    of the audio parameters, which is none of a colour, an opacity, a
    distortion and a tempo, and takes it from 0.3 to 1. *)
Lemma reverbWet_is_tweened :
  In (gsap.AudioParams, "reverbWet") (tweened mountedPage) /\
  ~ In (gsap.AudioParams, "reverbWet") fourParameters /\
  Audio.reverbWet (audioParams (run [Scroll 0] mountedPage)) = 0.3 /\
  Audio.reverbWet (audioParams (run [Scroll 1] mountedPage)) = 1.
Proof.
  split; [vm_compute; tauto |].
  split; [| split; vm_compute; reflexivity].
  cbn. intros [H | [H | [H | [H | []]]]]; discriminate.
Qed.

(** C6, amended.  The timeline animates twelve properties.  Six are the
    transient parameters, held in two records: a colour, an opacity and a
    visual distortion; a tempo, an audio distortion and a reverb wet
    level.  Every rendered frame reads the colour, the opacity, the visual
    distortion and the tempo; the audio distortion and the reverb wet
    level are read only in the frames in which the audio system is ready.
    The other six are properties of the scene graph the timeline writes
    directly: the group's position x and z and rotation y, and the
    wireframe's scale x, y and z. *)
Theorem tweened_parameters :
  (forall w0 : World,
     tweened (mount w0) =
       [ (gsap.GroupPosition, "z"); (gsap.GroupPosition, "x");
         (gsap.VisualParams, "color"); (gsap.VisualParams, "opacity");
         (gsap.VisualParams, "distort");
         (gsap.GroupRotation, "y");
         (gsap.AudioParams, "bpm");
         (gsap.WireframeScale, "x"); (gsap.WireframeScale, "y");
         (gsap.WireframeScale, "z");
         (gsap.AudioParams, "distort"); (gsap.AudioParams, "reverbWet") ] /\
     filter isParameterRecord (tweened (mount w0)) =
       [ (gsap.VisualParams, "color"); (gsap.VisualParams, "opacity");
         (gsap.VisualParams, "distort");
         (gsap.AudioParams, "bpm"); (gsap.AudioParams, "distort");
         (gsap.AudioParams, "reverbWet") ]) /\
  (* every frame: colour, opacity, visual distortion and tempo *)
  (forall (w : World) (elapsed delta : Q),
     reachable w -> enabled (Frame elapsed delta) w = true ->
     material (fire (Frame elapsed delta) w) =
       Material.mk (Visual.color (visualParams w)) (Visual.opacity (visualParams w))
                   (Visual.distort (visualParams w)) (Audio.bpm (audioParams w) / 30)) /\
  (* frames with the audio ready: the audio distortion and the wet level too *)
  (forall (w : World) (elapsed delta : Q),
     reachable w -> enabled (Frame elapsed delta) w = true ->
     AudioSystem.isReady (audioSystem w) = true ->
     let w' := fire (Frame elapsed delta) w in
     Tone.transportBpm (tone w') = Audio.bpm (audioParams w) /\
     option_map Tone.distortion (AudioSystem.distortion (audioSystem w')) =
       Some (Audio.distort (audioParams w)) /\
     option_map Tone.wet (AudioSystem.reverb (audioSystem w')) =
       Some (Audio.reverbWet (audioParams w))) /\
  (* frames with the audio not ready: neither of the two is read, the frame
     does the same whatever they are *)
  (forall (w : World) (elapsed delta distort' wet' : Q),
     AudioSystem.isReady (audioSystem w) = false ->
     let params' := Audio.mk (Audio.bpm (audioParams w)) distort' wet' in
     frame elapsed delta (set_audioParams params' w) =
       set_audioParams params' (frame elapsed delta w)).
Proof.
  split; [| split; [| split]].
  - intros w0. split; vm_compute; reflexivity.
  - intros w elapsed delta R En. cbn [fire].
    pose proof (reachable_invariant w R) as I.
    cbn in En. apply andb_true_iff in En as [Hmt _].
    destruct (inv_refs w I Hmt) as (Hg & Hm & _).
    apply (frame_material elapsed delta w Hg Hm).
  - intros w elapsed delta R En Hr w'. subst w'. cbn [fire].
    pose proof (reachable_invariant w R) as I.
    cbn in En. apply andb_true_iff in En as [Hmt _].
    destruct (inv_refs w I Hmt) as (Hg & Hm & _).
    destruct (frame_audio_ready elapsed delta w Hg Hr) as (Hb & Hd & Hrv).
    destruct (inv_ready w I Hr) as (_ & _ & Sd & Sr).
    rewrite Hb, Hd, Hrv.
    destruct (AudioSystem.distortion (audioSystem w)) as [d |]; [| discriminate].
    destruct (AudioSystem.reverb (audioSystem w)) as [r |]; [| discriminate].
    split_all; reflexivity.
  - intros w elapsed delta distort' wet' Hr params'. subst params'.
    revert Hr. open_world w. intros ->. unfold frame, useFrame; cbn.
    destruct gRef, mRef, wRef, beat; cbn; reflexivity.
Qed.

Lemma tweened_parameters_witness :
  reachable scrolledPage /\
  enabled (Frame 0 (1 / 60)) scrolledPage = true /\
  AudioSystem.isReady (audioSystem scrolledPage) = true /\
  Material.opacity (material (fire (Frame 0 (1 / 60)) scrolledPage)) = 0.8 /\
  option_map Tone.wet
    (AudioSystem.reverb (audioSystem (fire (Frame 0 (1 / 60)) scrolledPage))) =
    Some 0.3 /\
  AudioSystem.isReady (audioSystem mountedPage) = false /\
  frame 0 (1 / 60) (set_audioParams (Audio.mk 60 0.8 1) mountedPage) =
    set_audioParams (Audio.mk 60 0.8 1) (frame 0 (1 / 60) mountedPage).
Proof.
  destruct tweened_parameters as (_ & Hevery & Hready & Hidle).
  pose proof (Hevery scrolledPage 0 (1 / 60) reachable_scrolledPage eq_refl) as Hm.
  pose proof (Hready scrolledPage 0 (1 / 60) reachable_scrolledPage eq_refl eq_refl) as H.
  cbv zeta in H. destruct H as (_ & _ & Hw).
  pose proof (Hidle mountedPage 0 (1 / 60) 0.8 1 eq_refl) as Hi. cbv zeta in Hi.
  split; [exact reachable_scrolledPage |].
  split; [reflexivity |]. split; [reflexivity |].
  split; [rewrite Hm; reflexivity |]. split; [exact Hw |].
  split; [reflexivity | exact Hi].
Defined.

(* ================================================================== *)
(** * Starting the audio *)



Lemma overlay_means_not_ready (w : World) :
  invariant w -> started w = false -> AudioSystem.isReady (audioSystem w) = false.
Proof.
  intros I Hs. destruct (AudioSystem.isReady (audioSystem w)) eqn:E; [| reflexivity].
  destruct (inv_ready w I E) as (_ & H & _). congruence.
Qed.

Lemma handleStart_fresh (w : World) :
  AudioSystem.isReady (audioSystem w) = false ->
  audioSystem (handleStart w) =
    AudioSystem.mk (Some heartOptions) (Some bloodOptions)
                   (Some {| Tone.distortion := 0 |}) (Some reverbOptions)
                   (Some {| Tone.interval := "4n"; Tone.startAt := 0;
                            Tone.loopState := Tone.LoopStarted |}) true /\
  tone (handleStart w) =
    Tone.mk true 60 Tone.Started true synthGraph (Some compressorOptions)
            (Some {| Tone.frequency := 600; Tone.filterType := "lowpass" |})
            (Tone.triggered (tone w)) /\
  started (handleStart w) = true.
Proof.
  open_world w. intros ->. unfold handleStart, initAudio; cbn.
  split_all; reflexivity.
Qed.




(* ================================================================== *)
(** * Bounds of the heartbeat scale *)

(** C8.  The heartbeat scale value always lies between 1 and 1.3: the
    interpolation factor of a frame is at most 0.8, a frame that finds the
    beat flag set interpolates from exactly 1.3, and in every reachable
    state the value, and the scale it was put on the mesh group with, is
    at least 1 and at most 1.3. *)
Theorem heartbeat_scale_bounds :
  (forall delta : Q, Math.min delta 0.1 * 8 <= 0.8) /\
  (forall (w : World) (elapsed delta : Q),
     reachable w -> enabled (Frame elapsed delta) w = true ->
     beatSignalRef w = true ->
     currentScaleRef (fire (Frame elapsed delta) w) =
       MathUtils.lerp 1.3 1 (Math.min delta 0.1 * 8)) /\
  (forall w : World,
     reachable w ->
     (1 <= currentScaleRef w /\ currentScaleRef w <= 1.3) /\
     exists s, Object3D.scale (group w) = Vector3.mk s s s /\ 1 <= s /\ s <= 1.3).
Proof.
  split; [exact factor_le |]. split.
  - intros w elapsed delta R En Hb. cbn [fire].
    pose proof (reachable_invariant w R) as I.
    cbn in En. apply andb_true_iff in En as [Hm _].
    destruct (inv_refs w I Hm) as (Hg & _).
    destruct (frame_scale elapsed delta w Hg) as (Hs & _).
    rewrite Hb in Hs. exact Hs.
  - intros w R. pose proof (reachable_invariant w R) as I.
    split; [exact (inv_scale w I) | exact (inv_group w I)].
Qed.

Lemma heartbeat_scale_bounds_witness :
  reachable beatingPage /\
  enabled (Frame 0 (1 / 60)) beatingPage = true /\
  beatSignalRef beatingPage = true /\
  1 <= currentScaleRef (fire (Frame 0 (1 / 60)) beatingPage) /\
  currentScaleRef (fire (Frame 0 (1 / 60)) beatingPage) <= 1.3.
Proof.
  destruct heartbeat_scale_bounds as (_ & Hbeat & Hinv).
  pose proof (Hbeat beatingPage 0 (1 / 60) reachable_beatingPage eq_refl eq_refl) as _.
  assert (R : reachable (fire (Frame 0 (1 / 60)) beatingPage))
    by (apply reach_fire; [exact reachable_beatingPage | reflexivity]).
  destruct (Hinv _ R) as [[Hlo Hhi] _].
  split; [exact reachable_beatingPage |]. split; [reflexivity |].
  split; [reflexivity |]. split; [exact Hlo | exact Hhi].
Defined.

(* ================================================================== *)
(** * Initialising the audio twice *)

(** C9.  Once the audio system is ready a call of [initAudio] changes
    nothing: not the [audioSystem] record, not the transport, not the
    synth graph.  So a second call in a row never does anything. *)
Theorem initAudio_idempotent :
  (forall w : World, AudioSystem.isReady (audioSystem w) = true -> initAudio w = w) /\
  (forall w : World, initAudio (initAudio w) = initAudio w).
Proof.
  assert (H : forall w, AudioSystem.isReady (audioSystem w) = true -> initAudio w = w).
  { intros w Hr. unfold initAudio. rewrite Hr. reflexivity. }
  split; [exact H |].
  intros w. destruct (AudioSystem.isReady (audioSystem w)) eqn:E.
  - rewrite (H w E). exact (H w E).
  - apply H. unfold initAudio. rewrite E. open_world w. reflexivity.
Qed.

Lemma initAudio_idempotent_witness :
  AudioSystem.isReady (audioSystem startedPage) = true /\
  initAudio startedPage = startedPage.
Proof.
  split; [reflexivity |].
  exact (proj1 initAudio_idempotent startedPage eq_refl).
Defined.

(* ================================================================== *)
(** * The visual tempo without audio *)

(** C10.  A frame puts bpm/30 on the material's speed whether or not the
    audio system is ready; it writes the transport tempo, the distortion
    and the reverb wet level only when the audio system is ready.  So
    while the overlay has not been clicked the audio system is not ready,
    frames and scrolling leave the audio graph as it is, and the speed
    still follows the tweened tempo. *)
Theorem speed_follows_tempo_without_audio (w : World) (elapsed delta : Q) :
  reachable w ->
  enabled (Frame elapsed delta) w = true ->
  let w' := fire (Frame elapsed delta) w in
  Material.speed (material w') = Audio.bpm (audioParams w) / 30 /\
  (AudioSystem.isReady (audioSystem w) = false ->
   tone w' = tone w /\ audioSystem w' = audioSystem w) /\
  (started w = false ->
   AudioSystem.isReady (audioSystem w) = false /\
   tone w' = tone w /\ audioSystem w' = audioSystem w /\
   forall p : Q,
     tone (fire (Scroll p) w) = tone w /\
     audioSystem (fire (Scroll p) w) = audioSystem w /\
     Material.speed (material (fire (Frame elapsed delta) (fire (Scroll p) w))) =
       Audio.bpm (audioParams (fire (Scroll p) w)) / 30).
Proof.
  intros R En w'. subst w'. cbn [fire].
  pose proof (reachable_invariant w R) as I.
  pose proof En as En'. cbn in En'. apply andb_true_iff in En' as [Hmt _].
  destruct (inv_refs w I Hmt) as (Hg & Hm & _).
  split; [rewrite (frame_material elapsed delta w Hg Hm); reflexivity |].
  split; [apply frame_audio_idle |].
  intros Hs. pose proof (overlay_means_not_ready w I Hs) as Hr.
  destruct (frame_audio_idle elapsed delta w Hr) as [Ht Ha].
  split_all; try assumption.
  intros p.
  destruct (onScroll_keeps p w)
    as (Ka & Kt & _ & _ & _ & _ & _ & _ & Kg & Kmr & _).
  split_all; try assumption.
  rewrite frame_material; [reflexivity | congruence | congruence].
Qed.

Lemma speed_follows_tempo_without_audio_witness :
  reachable mountedPage /\
  enabled (Frame 0 (1 / 60)) mountedPage = true /\
  started mountedPage = false /\
  Material.speed (material (fire (Frame 0 (1 / 60)) (fire (Scroll (1 / 3)) mountedPage)))
    = 100 / 30 /\
  tone (fire (Frame 0 (1 / 60)) mountedPage) = tone mountedPage.
Proof.
  pose proof (speed_follows_tempo_without_audio mountedPage 0 (1 / 60)
                reachable_mountedPage eq_refl) as H.
  cbv zeta in H. destruct H as (_ & _ & Hb).
  destruct (Hb eq_refl) as (_ & Ht & _ & Hp).
  destruct (Hp (1 / 3)) as (_ & _ & Hs).
  split; [exact reachable_mountedPage |]. split; [reflexivity |].
  split; [reflexivity |]. split; [exact Hs | exact Ht].
Defined.

(* ================================================================== *)
(** * Interpolation stays between its ends *)

Lemma ease_unit (p : Q) : 0 <= p -> p <= 1 -> 0 <= gsap.ease p /\ gsap.ease p <= 1.
Proof. unfold gsap.ease. intros. split; nra. Qed.

Lemma ratio_unit (tw : gsap.Tween) (t : Q) :
  gsap.startTime tw < t -> 0 < gsap.duration tw ->
  0 <= gsap.ratio tw t /\ gsap.ratio tw t <= 1.
Proof.
  intros Hs Hd. unfold gsap.ratio.
  destruct (Qle_bool (gsap.endTime tw) t) eqn:E; [split; lra |].
  assert (Hlt : t < gsap.endTime tw).
  { apply Qnot_le_lt. intros H. apply Qle_bool_iff in H. congruence. }
  unfold gsap.endTime in Hlt.
  apply ease_unit.
  - apply Qle_shift_div_l; [exact Hd | lra].
  - apply Qle_shift_div_r; [exact Hd | lra].
Qed.

Lemma mixNum_between (s e lo hi : Q) (tw : gsap.Tween) (t : Q) :
  gsap.startTime tw < t -> 0 < gsap.duration tw ->
  lo <= s -> s <= hi -> lo <= e -> e <= hi ->
  lo <= gsap.mixNum s e tw t /\ gsap.mixNum s e tw t <= hi.
Proof.
  intros Hs Hd H1 H2 H3 H4. unfold gsap.mixNum.
  destruct (Qle_bool (gsap.endTime tw) t); [split; assumption |].
  destruct (ratio_unit tw t Hs Hd) as [R0 R1].
  split; nra.
Qed.



Lemma entered (t s : Q) : Qle_bool t s = false -> s < t.
Proof. intros E. apply Qnot_le_lt. intros H. apply Qle_bool_iff in H. congruence. Qed.

Lemma mixNum_range (lo hi s e : Q) (tw : gsap.Tween) (t : Q) :
  gsap.startTime tw < t -> 0 < gsap.duration tw ->
  between lo s hi -> between lo e hi -> between lo (gsap.mixNum s e tw t) hi.
Proof.
  intros Hs Hd [H1 H2] [H3 H4]. now apply mixNum_between.
Qed.

Ltac range_goal :=
  match goal with
  | |- between _ (gsap.mixNum _ _ _ _) _ =>
      apply mixNum_range;
      [ cbn; assumption | reflexivity
      | first [assumption | unfold between; cbn; split; lra]
      | unfold between; cbn; split; lra ]
  | |- uniform _ =>
      unfold uniform, Vector3.set_x, Vector3.set_y, Vector3.set_z in *;
      cbn in *;
      match goal with H : _ = _ /\ _ = _ |- _ => destruct H as [-> ->] end;
      split; reflexivity
  | |- _ => assumption
  end.

Lemma children_inRange :
  Forall (fun tw => forall t ts, inRange ts -> inRange (gsap.renderTween t ts tw))
         (gsap.children (fst sceneTimeline)).
Proof.
  let c := eval vm_compute in (gsap.children (fst sceneTimeline)) in
  change (gsap.children (fst sceneTimeline)) with c.
  repeat match goal with
         | |- Forall _ (_ :: _) => apply Forall_cons
         | |- Forall _ [] => apply Forall_nil
         end; intros t ts B; unfold gsap.renderTween;
    cbn [gsap.startTime gsap.fromVars gsap.vars gsap.target];
    match goal with |- context [Qle_bool t ?s] => destruct (Qle_bool t s) eqn:E end;
    try exact B; apply entered in E.
  all: destruct ts as [[px py pz] [rx ry rz] [sx sy sz] [c d o] [bpm ad wet]];
       unfold inRange in *; cbn in B;
       destruct B as (B1 & B2 & B3 & B4 & B5 & B6 & B7 & B8 & B9 & B10 & B11 & B12 & B13).
  all: cbn -[gsap.mixNum gsap.mixColor Qle Qlt Qeq between uniform].
  all: repeat match goal with |- _ /\ _ => split end.
  all: range_goal.
Qed.

Lemma render_inRange (t : Q) :
  inRange (gsap.render (fst sceneTimeline) (snd sceneTimeline) t).
Proof.
  unfold gsap.render.
  assert (H0 : inRange (snd sceneTimeline))
    by (vm_compute; repeat split; congruence).
  revert H0. generalize (snd sceneTimeline).
  induction children_inRange as [| tw tws Htw _ IH]; intros ts H; cbn.
  - exact H.
  - apply IH. now apply Htw.
Qed.



(* ================================================================== *)
(** * Reading and writing the tween targets *)

(** What was written is what is read back. *)
Lemma targetsOf_writeTargets (ts : gsap.Targets) (w : World) :
  targetsOf (writeTargets ts w) = ts.
Proof. open_world w. destruct ts. reflexivity. Qed.

Lemma writeTargets_others (ts : gsap.Targets) (w : World) :
  timeline (writeTargets ts w) = timeline w /\
  Object3D.rotation (wireframe (writeTargets ts w)) = Object3D.rotation (wireframe w) /\
  Object3D.position (wireframe (writeTargets ts w)) = Object3D.position (wireframe w).
Proof. open_world w. destruct ts. cbn. repeat split; reflexivity. Qed.

Lemma mount_fresh (w : World) :
  timeline (mount w) = Some sceneTimeline /\
  targetsOf (mount w) = snd sceneTimeline /\
  material (mount w) = Material.initial /\
  wireframe (mount w) = Object3D.initialWireframe /\
  group (mount w) = Object3D.initialGroup /\
  visualParams (mount w) = Visual.initial /\
  audioParams (mount w) = Audio.initial /\
  currentScaleRef (mount w) = 1 /\
  beatSignalRef (mount w) = false /\
  started (mount w) = false /\ mounted (mount w) = true /\
  audioSystem (mount w) = audioSystem w /\ tone (mount w) = tone w.
Proof. vm_compute. repeat split; reflexivity. Qed.

Lemma frame_wireframe (elapsed delta : Q) (w : World) :
  groupRef w = Current -> wireframeRef w = Current ->
  wireframe (frame elapsed delta w) =
    set_rotation_x (elapsed * 0.1) (set_rotation_y (- elapsed * 0.1) (wireframe w)).
Proof.
  open_world w. intros -> ->.
  unfold frame, useFrame; cbn.
  destruct mRef, beat, isReady, distortion, reverb; cbn; reflexivity.
Qed.

Lemma frame_targets (elapsed delta : Q) (w : World) :
  targetsOf (frame elapsed delta w) = targetsOf w.
Proof.
  open_world w. unfold frame, useFrame; cbn.
  destruct gRef, mRef, wRef, beat, isReady, distortion, reverb; cbn;
    destruct wireframe; reflexivity.
Qed.

Lemma speed_range (bpm : Q) : between 30 bpm 180 -> between 1 (bpm / 30) 6.
Proof.
  unfold between. intros [H1 H2]. split.
  - apply Qle_shift_div_l; lra.
  - apply Qle_shift_div_r; lra.
Qed.

(* ================================================================== *)
(** * The range invariant *)

Lemma origin_inRange : inRange (snd sceneTimeline).
Proof. vm_compute. repeat split; congruence. Qed.

Lemma scrubTo_inRange (p : Q) :
  inRange (gsap.scrubTo (fst sceneTimeline) (snd sceneTimeline) p).
Proof. unfold gsap.scrubTo. apply render_inRange. Qed.

Lemma tuned_pageLoad : tuned pageLoad.
Proof.
  constructor; try discriminate; try (vm_compute; repeat split; congruence).
Qed.

Lemma tuned_mount (w : World) : tuned w -> tuned (mount w).
Proof.
  intros T.
  destruct (mount_fresh w)
    as (Ht & Hts & Hm & Hw & _ & _ & _ & _ & _ & _ & _ & Ha & Hto).
  constructor; rewrite ?Ht, ?Hts, ?Hm, ?Hw, ?Ha, ?Hto;
    try apply T; try apply origin_inRange; try reflexivity;
    vm_compute; repeat split; congruence.
Qed.

Lemma tuned_unmount (w : World) : tuned w -> tuned (unmount w).
Proof.
  intros [T1 T2 T3 T4 T5 T6 T7 T8]. open_world w.
  destruct loop; constructor; unfold unmount, cleanup; cbn; try discriminate; assumption.
Qed.

Lemma tuned_click (w : World) :
  tuned w -> AudioSystem.isReady (audioSystem w) = false -> tuned (handleStart w).
Proof.
  intros [T1 T2 T3 T4 T5 T6 T7 T8]. open_world w. intros ->.
  constructor; unfold handleStart, initAudio; cbn; try assumption.
  - unfold between; split; lra.
  - intros d E. injection E as <-. cbn. unfold between; split; lra.
  - intros r E. injection E as <-. cbn. unfold between; split; lra.
Qed.

Lemma tuned_scroll (p : Q) (w : World) :
  tuned w -> mounted w = true -> tuned (onScroll p w).
Proof.
  intros T Hm. pose proof (tuned_timeline w T Hm) as Htl.
  destruct (onScroll_keeps p w) as (Ha & Ht & Km & _ & _ & _ & Kmat & _).
  unfold onScroll in *. rewrite Htl in *. destruct sceneTimeline as [line origin0] eqn:Es.
  destruct (writeTargets_others (gsap.scrubTo line origin0 p) w) as (Ktl & Kr & Kp).
  constructor; rewrite ?targetsOf_writeTargets, ?Ha, ?Ht, ?Kmat, ?Ktl, ?Kr, ?Kp;
    try apply T.
  - intros _. congruence.
  - pose proof (scrubTo_inRange p) as H. rewrite Es in H. exact H.
Qed.

Lemma tuned_frame (elapsed delta : Q) (w : World) :
  tuned w -> invariant w -> mounted w = true -> tuned (frame elapsed delta w).
Proof.
  intros T I Hm.
  destruct (inv_refs w I Hm) as (Hg & Hmr & Hw).
  destruct (frame_keeps elapsed delta w)
    as (Km & _ & _ & _ & _ & _ & Kv & Ka & Ktl & _).
  pose proof (tuned_targets w T) as R.
  destruct R as (Rb & Rd & Rw & Ro & Rv & _).
  constructor.
  - rewrite Km, Ktl. apply T.
  - rewrite frame_targets. apply T.
  - destruct (AudioSystem.isReady (audioSystem w)) eqn:E.
    + destruct (frame_audio_ready elapsed delta w Hg E) as (-> & _). exact Rb.
    + destruct (frame_audio_idle elapsed delta w E) as (-> & _). apply T.
  - destruct (AudioSystem.isReady (audioSystem w)) eqn:E.
    + destruct (frame_audio_ready elapsed delta w Hg E) as (_ & -> & _).
      destruct (AudioSystem.distortion (audioSystem w)); cbn; [| discriminate].
      intros d' E'. injection E' as <-. exact Rd.
    + destruct (frame_audio_idle elapsed delta w E) as (_ & ->). apply T.
  - destruct (AudioSystem.isReady (audioSystem w)) eqn:E.
    + destruct (frame_audio_ready elapsed delta w Hg E) as (_ & _ & ->).
      destruct (AudioSystem.reverb (audioSystem w)); cbn; [| discriminate].
      intros r' E'. injection E' as <-. exact Rw.
    + destruct (frame_audio_idle elapsed delta w E) as (_ & ->). apply T.
  - rewrite (frame_material elapsed delta w Hg Hmr). exact Ro.
  - rewrite (frame_material elapsed delta w Hg Hmr). exact Rv.
  - rewrite (frame_wireframe elapsed delta w Hg Hw).
    destruct (tuned_cage w T) as (Hz & Hp).
    destruct (wireframe w) as [pos [rx ry rz] sc]. cbn in *.
    split; assumption.
Qed.

Lemma tuned_beat (time : Q) (w : World) : tuned w -> tuned (loopCallback time w).
Proof.
  intros [T1 T2 T3 T4 T5 T6 T7 T8]. open_world w.
  constructor; unfold loopCallback; cbn; assumption.
Qed.

Theorem reachable_tuned (w : World) : reachable w -> tuned w.
Proof.
  induction 1 as [| w e R IH En].
  - apply tuned_pageLoad.
  - pose proof (reachable_invariant w R) as I.
    destruct e; cbn [fire]; cbn in En.
    + now apply tuned_mount.
    + now apply tuned_unmount.
    + apply tuned_click; [exact IH |].
      apply andb_true_iff in En as [_ Ho]. unfold overlayRendered in Ho.
      apply negb_true_iff in Ho. now apply overlay_means_not_ready.
    + apply tuned_scroll; [exact IH |].
      apply andb_true_iff in En as [En _]. now apply andb_true_iff in En as [En _].
    + apply andb_true_iff in En as [Hm _]. now apply tuned_frame.
    + now apply tuned_beat.
Qed.


Lemma reachable_leftPage : reachable leftPage.
Proof. apply reachable_run, reach_pageLoad. Qed.

(* ================================================================== *)
(** * Rounding to six decimals *)

Lemma round_between (a b : Z) (x : Q) :
  inject_Z a <= x -> x <= inject_Z b ->
  (a <= gsap.round x)%Z /\ (gsap.round x <= b)%Z.
Proof.
  intros Ha Hb. unfold gsap.round. split.
  - rewrite <- (Qfloor_Z a). apply Qfloor_resp_le. lra.
  - pose proof (Qfloor_le (x + 0.5)) as H.
    assert (Hlt : inject_Z (Qfloor (x + 0.5)) < inject_Z (b + 1)).
    { rewrite inject_Z_plus. change (inject_Z 1) with 1. lra. }
    rewrite <- Zlt_Qlt in Hlt. lia.
Qed.

Lemma scale_up (a : Z) : inject_Z a == inject_Z a / 1000000 * 1000000.
Proof. field. Qed.

(** Rounding does not leave an interval whose ends have six decimals. *)
Lemma round6_between (a b : Z) (q : Q) :
  between (inject_Z a / 1000000) q (inject_Z b / 1000000) ->
  between (inject_Z a / 1000000) (round6 q) (inject_Z b / 1000000).
Proof.
  unfold between, round6. intros [Ha Hb].
  pose proof (scale_up a) as Ea. pose proof (scale_up b) as Eb.
  destruct (round_between a b (q * 1000000)) as [H1 H2].
  - set (X := inject_Z a / 1000000) in *. lra.
  - set (Y := inject_Z b / 1000000) in *. lra.
  - rewrite Zle_Qle in H1, H2.
    split; apply Qmult_le_compat_r; try assumption; discriminate.
Qed.

Lemma round6_range (lo hi : Q) (a b : Z) (q : Q) :
  lo == inject_Z a / 1000000 -> hi == inject_Z b / 1000000 ->
  between lo q hi -> between lo (round6 q) hi.
Proof.
  unfold between. intros Ea Eb [H1 H2].
  destruct (round6_between a b q) as [K1 K2].
  - unfold between. rewrite <- Ea, <- Eb. split; assumption.
  - split; [rewrite Ea; exact K1 | rewrite Eb; exact K2].
Qed.

Lemma round6_zero (q : Q) : q == 0 -> round6 q == 0.
Proof.
  intros E. destruct (round6_range 0 0 0 0 q) as [H1 H2];
    try reflexivity; [unfold between; rewrite E; split; lra |].
  lra.
Qed.

Ltac rounded_goal :=
  match goal with
  | |- between ?lo (round6 _) ?hi =>
      let a := eval vm_compute in (Qfloor (lo * 1000000)) in
      let b := eval vm_compute in (Qfloor (hi * 1000000)) in
      apply (round6_range lo hi a b);
      [vm_compute; reflexivity | vm_compute; reflexivity | assumption]
  | |- round6 _ == 0 => apply round6_zero; assumption
  end.

Lemma written_inRange (ts : gsap.Targets) : inRange ts -> inRange (written ts).
Proof.
  destruct ts as [[px py pz] [rx ry rz] [sx sy sz] [c d o] [bpm ad wet]].
  unfold inRange, written, roundVec, uniform; cbn.
  intros (B1 & B2 & B3 & B4 & B5 & B6 & B7 & B8 & B9 & B10 & B11 & [E1 E2] & B13).
  subst sy sz.
  repeat match goal with |- _ /\ _ => split end; try rounded_goal; reflexivity.
Qed.

(* ================================================================== *)
(** * Ranges of the animated values *)

(** X1.  Wherever the playhead of the timeline is - any time, also before
    0 and after 3, so also while the scrub is still catching up with the
    scroll - and in every reachable state, the animated values are in
    range, and they still are when rounded to six decimals as the library
    writes them: tempo 30 to 180, audio distortion 0 to 0.8, reverb wet
    0.3 to 1, opacity 0.3 to 0.95, visual distortion 0 to 1.5, the group
    at x in -1.5 to 0.5, y = 0, z in 0 to 1.5 and turned about y only, by
    0 to 3.141593 (pi rounded to six decimals), the wireframe scaled
    uniformly by 1.05 to 1.5. *)
Theorem timeline_keeps_targets_in_range :
  (forall (w0 : World) (t : Q),
     exists tl origin,
       timeline (mount w0) = Some (tl, origin) /\
       inRange (gsap.render tl origin t) /\
       inRange (written (gsap.render tl origin t))) /\
  (forall w : World,
     reachable w -> inRange (targetsOf w) /\ inRange (written (targetsOf w))).
Proof.
  split.
  - intros w0 t. destruct (mount_fresh w0) as (Ht & _).
    exists (fst sceneTimeline), (snd sceneTimeline).
    split; [rewrite Ht; destruct sceneTimeline; reflexivity |].
    pose proof (render_inRange t) as H.
    split; [exact H | now apply written_inRange].
  - intros w R. pose proof (tuned_targets w (reachable_tuned w R)) as H.
    split; [exact H | now apply written_inRange].
Qed.

Lemma timeline_keeps_targets_in_range_witness :
  reachable scrolledPage /\ inRange (targetsOf scrolledPage) /\
  inRange (written (targetsOf scrolledPage)).
Proof.
  split; [exact reachable_scrolledPage |].
  exact (proj2 timeline_keeps_targets_in_range scrolledPage reachable_scrolledPage).
Defined.

(** X2.  In every reachable state the values on the audio graph and on
    the material are in range: transport tempo 30 to 180 (so never zero or
    negative), distortion amount 0 to 0.8, reverb wet 0.3 to 1, material
    opacity 0.3 to 0.95, material distortion 0 to 1.5.  And the speed a
    frame writes on the material is between 1 and 6. *)
Theorem audio_and_material_stay_in_range :
  (forall w : World,
     reachable w ->
     between 30 (Tone.transportBpm (tone w)) 180 /\
     (forall d, AudioSystem.distortion (audioSystem w) = Some d ->
                between 0 (Tone.distortion d) 0.8) /\
     (forall r, AudioSystem.reverb (audioSystem w) = Some r ->
                between 0.3 (Tone.wet r) 1) /\
     between 0.3 (Material.opacity (material w)) 0.95 /\
     between 0 (Material.distort (material w)) 1.5) /\
  (forall (w : World) (elapsed delta : Q),
     reachable w -> enabled (Frame elapsed delta) w = true ->
     between 1 (Material.speed (material (fire (Frame elapsed delta) w))) 6).
Proof.
  split.
  - intros w R. pose proof (reachable_tuned w R) as T.
    exact (conj (tuned_tempo w T) (conj (tuned_distortion w T)
            (conj (tuned_reverb w T) (conj (tuned_opacity w T) (tuned_distort w T))))).
  - intros w elapsed delta R En. cbn [fire].
    pose proof (reachable_invariant w R) as I.
    cbn in En. apply andb_true_iff in En as [Hm _].
    destruct (inv_refs w I Hm) as (Hg & Hmr & _).
    rewrite (frame_material elapsed delta w Hg Hmr). cbn.
    apply speed_range. apply (tuned_targets w (reachable_tuned w R)).
Qed.

Lemma audio_and_material_stay_in_range_witness :
  reachable scrolledPage /\
  between 30 (Tone.transportBpm (tone scrolledPage)) 180 /\
  enabled (Frame 0 (1 / 60)) scrolledPage = true /\
  between 1 (Material.speed (material (fire (Frame 0 (1 / 60)) scrolledPage))) 6.
Proof.
  destruct audio_and_material_stay_in_range as (H1 & H2).
  destruct (H1 scrolledPage reachable_scrolledPage) as (Hb & _).
  pose proof (H2 scrolledPage 0 (1 / 60) reachable_scrolledPage eq_refl) as Hs.
  split; [exact reachable_scrolledPage |]. split; [exact Hb |].
  split; [reflexivity | exact Hs].
Defined.

(** X3.  In every reachable state the wireframe mesh is where the JSX put
    it, at the origin, and is not turned about z: the frame callback
    writes only its turns about x and y, the timeline only its scale.
    That scale is uniform and between 1.05 and 1.5. *)
Theorem wireframe_cage_invariant (w : World) :
  reachable w ->
  Object3D.position (wireframe w) = Object3D.origin /\
  Vector3.z (Object3D.rotation (wireframe w)) = 0 /\
  uniform (Object3D.scale (wireframe w)) /\
  between 1.05 (Vector3.x (Object3D.scale (wireframe w))) 1.5.
Proof.
  intros R. pose proof (reachable_tuned w R) as T.
  destruct (tuned_cage w T) as (H2 & H3).
  destruct (tuned_targets w T) as (_ & _ & _ & _ & _ & _ & _ & _ & _ & _ & _ & H4 & H5).
  exact (conj H3 (conj H2 (conj H4 H5))).
Qed.

Lemma wireframe_cage_invariant_witness :
  reachable (fire (Frame 7 (1 / 60)) scrolledPage) /\
  Object3D.position (wireframe (fire (Frame 7 (1 / 60)) scrolledPage)) =
    Object3D.origin /\
  Vector3.z (Object3D.rotation (wireframe (fire (Frame 7 (1 / 60)) scrolledPage))) = 0.
Proof.
  assert (R : reachable (fire (Frame 7 (1 / 60)) scrolledPage))
    by (apply reach_fire; [exact reachable_scrolledPage | reflexivity]).
  destruct (wireframe_cage_invariant _ R) as (Hp & Hz & _).
  split; [exact R | split; [exact Hp | exact Hz]].
Defined.

(* ================================================================== *)
(** * The life of the audio *)

(** X6.  A completed [initAudio] leaves the transport at 60 bpm, the
    distortion at 0 and the reverb wet at 0.3 whatever the tweened
    parameters are, and changes neither parameter record; a frame rendered
    after it has completed brings the tempo, the distortion and the wet
    level to the tweened values.  (What frames do between the click and
    the completion is not said here.) *)
Theorem initAudio_resets_tempo_until_next_frame (w : World) :
  AudioSystem.isReady (audioSystem w) = false -> groupRef w = Current ->
  Tone.transportBpm (tone (initAudio w)) = 60 /\
  option_map Tone.distortion (AudioSystem.distortion (audioSystem (initAudio w))) =
    Some 0 /\
  option_map Tone.wet (AudioSystem.reverb (audioSystem (initAudio w))) = Some 0.3 /\
  audioParams (initAudio w) = audioParams w /\
  visualParams (initAudio w) = visualParams w /\
  forall elapsed delta : Q,
    let w' := frame elapsed delta (initAudio w) in
    Tone.transportBpm (tone w') = Audio.bpm (audioParams w) /\
    option_map Tone.distortion (AudioSystem.distortion (audioSystem w')) =
      Some (Audio.distort (audioParams w)) /\
    option_map Tone.wet (AudioSystem.reverb (audioSystem w')) =
      Some (Audio.reverbWet (audioParams w)).
Proof.
  open_world w. intros -> ->. unfold initAudio; cbn.
  repeat split; try reflexivity;
    unfold frame, useFrame; cbn; destruct mRef, wRef, beat; reflexivity.
Qed.

Lemma initAudio_resets_tempo_until_next_frame_witness :
  AudioSystem.isReady (audioSystem panicPage) = false /\
  groupRef panicPage = Current /\
  Tone.transportBpm (tone (initAudio panicPage)) = 60 /\
  Tone.transportBpm (tone (frame 0 (1 / 60) (initAudio panicPage))) = 180.
Proof.
  destruct (initAudio_resets_tempo_until_next_frame panicPage eq_refl eq_refl)
    as (H60 & _ & _ & _ & _ & Hf).
  destruct (Hf 0 (1 / 60)) as (H180 & _).
  split; [reflexivity |]. split; [reflexivity |]. split; [exact H60 | exact H180].
Defined.

(** X7.  When the clean-up effect returns, in whatever state it ran, the
    transport is stopped with nothing scheduled, the ready flag is cleared
    and the stored loop is disposed, so that loop is not ticking.  Nothing
    else is disposed or reset: the tempo, the audio context, the
    connections and the stored heart, blood, distortion and reverb nodes
    are kept, as is everything outside the audio.  Running it twice is
    running it once. *)
Theorem cleanup_silences_audio (w : World) :
  Tone.transportState (tone (cleanup w)) = Tone.Stopped /\
  Tone.transportScheduled (tone (cleanup w)) = false /\
  AudioSystem.isReady (audioSystem (cleanup w)) = false /\
  AudioSystem.loop (audioSystem (cleanup w)) =
    option_map dispose (AudioSystem.loop (audioSystem w)) /\
  loopRunning (cleanup w) = false /\
  (* kept *)
  Tone.transportBpm (tone (cleanup w)) = Tone.transportBpm (tone w) /\
  Tone.contextRunning (tone (cleanup w)) = Tone.contextRunning (tone w) /\
  Tone.connections (tone (cleanup w)) = Tone.connections (tone w) /\
  Tone.triggered (tone (cleanup w)) = Tone.triggered (tone w) /\
  AudioSystem.heart (audioSystem (cleanup w)) = AudioSystem.heart (audioSystem w) /\
  AudioSystem.blood (audioSystem (cleanup w)) = AudioSystem.blood (audioSystem w) /\
  AudioSystem.distortion (audioSystem (cleanup w)) =
    AudioSystem.distortion (audioSystem w) /\
  AudioSystem.reverb (audioSystem (cleanup w)) = AudioSystem.reverb (audioSystem w) /\
  set_tone (tone w) (set_audioSystem (audioSystem w) (cleanup w)) = w /\
  (* twice *)
  cleanup (cleanup w) = cleanup w.
Proof.
  open_world w. unfold cleanup, loopRunning.
  destruct loop as [[interval startAt state] |]; cbn; repeat split; reflexivity.
Qed.

(** X8.  Unmounting a mounted page, mounting it again and clicking the
    overlay is always possible and starts the audio afresh: the clean-up
    cleared the ready flag, so [initAudio] runs again and leaves a running
    transport at 60 bpm, a ticking loop, distortion 0 and reverb wet 0.3,
    with the tweened parameters and the heartbeat scale back at rest. *)
Theorem remount_restarts_audio (w : World) :
  mounted w = true ->
  let w1 := fire Unmount w in
  let w2 := fire Mount w1 in
  let w3 := fire ClickOverlay w2 in
  enabled Unmount w = true /\ enabled Mount w1 = true /\
  enabled ClickOverlay w2 = true /\
  AudioSystem.isReady (audioSystem w2) = false /\
  AudioSystem.isReady (audioSystem w3) = true /\
  Tone.transportBpm (tone w3) = 60 /\
  Tone.transportState (tone w3) = Tone.Started /\
  loopRunning w3 = true /\
  option_map Tone.distortion (AudioSystem.distortion (audioSystem w3)) = Some 0 /\
  option_map Tone.wet (AudioSystem.reverb (audioSystem w3)) = Some 0.3 /\
  visualParams w3 = Visual.initial /\ audioParams w3 = Audio.initial /\
  currentScaleRef w3 = 1 /\
  Tone.triggered (tone w3) = Tone.triggered (tone w).
Proof.
  intros Hm w1 w2 w3. subst w1 w2 w3. cbn [fire enabled].
  destruct (mount_fresh (unmount w))
    as (_ & _ & _ & _ & _ & Hv & Ha & Hs & _ & Hst & Hmt & Has & Hto).
  assert (U : mounted (unmount w) = false /\
              AudioSystem.isReady (audioSystem (unmount w)) = false /\
              Tone.triggered (tone (unmount w)) = Tone.triggered (tone w)).
  { clear. open_world w. unfold unmount, cleanup. destruct loop; cbn; auto. }
  destruct U as (U1 & U2 & U3).
  assert (Hr : AudioSystem.isReady (audioSystem (mount (unmount w))) = false)
    by (rewrite Has; exact U2).
  destruct (handleStart_fresh _ Hr) as (Ka & Kt & _).
  assert (K : visualParams (handleStart (mount (unmount w))) =
                visualParams (mount (unmount w)) /\
              audioParams (handleStart (mount (unmount w))) =
                audioParams (mount (unmount w)) /\
              currentScaleRef (handleStart (mount (unmount w))) =
                currentScaleRef (mount (unmount w))).
  { generalize (mount (unmount w)). clear. intros w. open_world w.
    unfold handleStart, initAudio. destruct isReady; cbn; auto. }
  destruct K as (K1 & K2 & K3).
  unfold overlayRendered, loopRunning.
  rewrite Hm, U1, Hmt, Hst, Hr, Ka, Kt, K1, K2, K3, Hv, Ha, Hs, Hto, U3. cbn.
  repeat split; reflexivity.
Qed.

Lemma remount_restarts_audio_witness :
  mounted (run [Mount; ClickOverlay; Scroll 1; Beat 0] pageLoad) = true /\
  Tone.transportBpm
    (tone (fire ClickOverlay (fire Mount (fire Unmount
       (run [Mount; ClickOverlay; Scroll 1; Beat 0] pageLoad))))) = 60.
Proof.
  pose proof (remount_restarts_audio
                (run [Mount; ClickOverlay; Scroll 1; Beat 0] pageLoad) eq_refl) as H.
  cbv zeta in H. destruct H as (_ & _ & _ & _ & _ & Hb & _).
  split; [reflexivity | exact Hb].
Defined.

(* ================================================================== *)
(** * The shape of the pulse *)

Lemma frames_quiet (fs : list (Q * Q)) (w : World) :
  groupRef w = Current -> beatSignalRef w = false ->
  currentScaleRef (frames fs w) == 1 + (currentScaleRef w - 1) * decay (map snd fs) /\
  beatSignalRef (frames fs w) = false.
Proof.
  revert w. induction fs as [| [e d] fs IH]; intros w Hg Hb; cbn.
  - split; [ring | exact Hb].
  - destruct (frame_scale e d w Hg) as (Hs & Hf & _).
    destruct (frame_keeps e d w) as (_ & _ & _ & Kg & _).
    assert (Hg' : groupRef (frame e d w) = Current) by congruence.
    destruct (IH (frame e d w) Hg' Hf) as [IH1 IH2].
    split; [| exact IH2].
    unfold frames in IH1. cbn in IH1. rewrite IH1, Hs, Hb.
    unfold MathUtils.lerp. ring.
Qed.

(** X9.  Without a new beat every frame multiplies the distance of the
    heartbeat scale from 1 by 1 - 8 * min(delta, 0.1): after frames with
    time steps d1 .. dn the scale is 1 + (s - 1) * prod (1 - 8 * min(di,
    0.1)), and 1 + 0.3 * that product when the first frame finds a beat;
    so between beats the scale never grows. *)
Theorem pulse_decays_geometrically :
  (forall (fs : list (Q * Q)) (w : World),
     groupRef w = Current -> beatSignalRef w = false ->
     currentScaleRef (frames fs w) ==
       1 + (currentScaleRef w - 1) * decay (map snd fs)) /\
  (forall (f : Q * Q) (fs : list (Q * Q)) (w : World),
     groupRef w = Current -> beatSignalRef w = true ->
     currentScaleRef (frames (f :: fs) w) == 1 + 0.3 * decay (map snd (f :: fs))) /\
  (forall (e d : Q) (w : World),
     reachable w -> enabled (Frame e d) w = true -> beatSignalRef w = false ->
     currentScaleRef (fire (Frame e d) w) <= currentScaleRef w).
Proof.
  split; [intros fs w Hg Hb; apply (frames_quiet fs w Hg Hb) |]. split.
  - intros [e d] fs w Hg Hb.
    destruct (frame_scale e d w Hg) as (Hs & Hf & _).
    destruct (frame_keeps e d w) as (_ & _ & _ & Kg & _).
    assert (Hg' : groupRef (frame e d w) = Current) by congruence.
    destruct (frames_quiet fs (frame e d w) Hg' Hf) as [H _].
    change (frames ((e, d) :: fs) w) with (frames fs (frame e d w)).
    rewrite H, Hs, Hb. cbn. unfold MathUtils.lerp. ring.
  - intros e d w R En Hb. pose proof (reachable_invariant w R) as I.
    cbn in En. apply andb_true_iff in En as [Hm Hd]. apply Qle_bool_iff in Hd.
    destruct (inv_refs w I Hm) as (Hg & _).
    destruct (frame_scale e d w Hg) as (Hs & _).
    cbn [fire]. rewrite Hs, Hb.
    destruct (inv_scale w I) as [Hlo _].
    pose proof (factor_le d). pose proof (factor_nonneg d Hd).
    destruct (lerp_towards_one (currentScaleRef w) (Math.min d 0.1 * 8)); lra.
Qed.

Lemma pulse_decays_geometrically_witness :
  groupRef beatingPage = Current /\ beatSignalRef beatingPage = true /\
  currentScaleRef (frames [(0, 0.1); (0.1, 0.1)] beatingPage) == 1.012 /\
  groupRef scrolledPage = Current /\ beatSignalRef scrolledPage = false /\
  currentScaleRef (frames [(0, 0.1); (0.1, 0.1)] scrolledPage) == 1 /\
  reachable scrolledPage /\ enabled (Frame 0 0.1) scrolledPage = true /\
  currentScaleRef (fire (Frame 0 0.1) scrolledPage) <= currentScaleRef scrolledPage.
Proof.
  destruct pulse_decays_geometrically as (H1 & H2 & H3).
  pose proof (H1 [(0, 0.1); (0.1, 0.1)] scrolledPage eq_refl eq_refl) as E1.
  pose proof (H2 (0, 0.1) [(0.1, 0.1)] beatingPage eq_refl eq_refl) as E2.
  pose proof (H3 0 0.1 scrolledPage reachable_scrolledPage eq_refl eq_refl) as E3.
  split; [reflexivity |]. split; [reflexivity |].
  split; [rewrite E2; vm_compute; reflexivity |].
  split; [reflexivity |]. split; [reflexivity |].
  split; [rewrite E1; vm_compute; reflexivity |].
  split; [exact reachable_scrolledPage |]. split; [reflexivity | exact E3].
Defined.


(** X10.  The beat signal is a flag, not a counter: two ticks of the loop
    before a frame give the same pulse and the same material as one tick,
    although both ticks have triggered both synths. *)
Theorem beats_between_frames_coalesce (w : World) (t1 t2 elapsed delta : Q) :
  pulse (frame elapsed delta (loopCallback t2 (loopCallback t1 w))) =
    pulse (frame elapsed delta (loopCallback t1 w)) /\
  material (frame elapsed delta (loopCallback t2 (loopCallback t1 w))) =
    material (frame elapsed delta (loopCallback t1 w)) /\
  Tone.triggered (tone (loopCallback t2 (loopCallback t1 w))) =
    (Tone.triggered (tone w) ++
     [Tone.HeartTrigger "C0" "4n" t1; Tone.BloodTrigger "8n" t1;
      Tone.HeartTrigger "C0" "4n" t2; Tone.BloodTrigger "8n" t2])%list.
Proof.
  open_world w. unfold pulse, frame, useFrame, loopCallback; cbn.
  repeat rewrite <- app_assoc. cbn.
  destruct gRef, mRef, wRef, isReady, distortion, reverb; cbn;
    repeat split; reflexivity.
Qed.

(* ================================================================== *)
(** * Missing refs *)

(** X11.  What each null check skips.  With the group ref null a frame
    changes nothing at all (a pending beat stays pending); with only the
    material ref null the material is left alone and the heartbeat still
    runs; with the wireframe ref null the wireframe is left alone; with
    the group or the wireframe ref null the setup effect builds no
    timeline, and without a timeline scrolling changes nothing. *)
Theorem missing_refs_skip_work :
  (forall (w : World) (elapsed delta : Q),
     groupRef w = Null -> frame elapsed delta w = w) /\
  (forall (w : World) (elapsed delta : Q),
     groupRef w = Current -> materialRef w = Null ->
     material (frame elapsed delta w) = material w /\
     currentScaleRef (frame elapsed delta w) =
       MathUtils.lerp (if beatSignalRef w then 1.3 else currentScaleRef w) 1
                      (Math.min delta 0.1 * 8)) /\
  (forall (w : World) (elapsed delta : Q),
     wireframeRef w = Null -> wireframe (frame elapsed delta w) = wireframe w) /\
  (forall w : World,
     groupRef w = Null \/ wireframeRef w = Null ->
     useGSAP w = Ok w) /\
  (forall (w : World) (p : Q), timeline w = None -> onScroll p w = w).
Proof.
  split; [| split; [| split; [| split]]].
  - intros w e d H. unfold frame. rewrite (useFrame_group_null e d w H). reflexivity.
  - intros w e d Hg Hm. split.
    + revert Hg Hm. open_world w. intros -> ->. unfold frame, useFrame; cbn.
      destruct wRef, beat, isReady, distortion, reverb; reflexivity.
    + apply (frame_scale e d w Hg).
  - intros w e d. open_world w. intros ->. unfold frame, useFrame; cbn.
    destruct gRef, mRef, beat, isReady, distortion, reverb; reflexivity.
  - intros w [H | H]; unfold useGSAP; rewrite H; cbn [isNull orb];
      [reflexivity | destruct (groupRef w); reflexivity].
  - intros w p H. unfold onScroll. rewrite H. reflexivity.
Qed.

Lemma missing_refs_skip_work_witness :
  groupRef leftPage = Null /\ beatSignalRef leftPage = true /\
  frame 0 (1 / 60) leftPage = leftPage /\
  groupRef (withRefs Current Null Null scrolledPage) = Current /\
  materialRef (withRefs Current Null Null scrolledPage) = Null /\
  wireframeRef (withRefs Current Null Null scrolledPage) = Null /\
  material (frame 0 (1 / 60) (withRefs Current Null Null scrolledPage)) =
    material scrolledPage /\
  wireframe (frame 0 (1 / 60) (withRefs Current Null Null scrolledPage)) =
    wireframe scrolledPage /\
  useGSAP (withRefs Current Null Null scrolledPage) =
    Ok (withRefs Current Null Null scrolledPage) /\
  timeline leftPage = None /\ onScroll (1 / 2) leftPage = leftPage.
Proof.
  destruct missing_refs_skip_work as (H1 & H2 & H3 & H4 & H5).
  pose proof (H1 leftPage 0 (1 / 60) eq_refl) as E1.
  destruct (H2 (withRefs Current Null Null scrolledPage) 0 (1 / 60) eq_refl eq_refl)
    as (E2 & _).
  pose proof (H3 (withRefs Current Null Null scrolledPage) 0 (1 / 60) eq_refl) as E3.
  pose proof (H4 (withRefs Current Null Null scrolledPage) (or_intror eq_refl)) as E4.
  pose proof (H5 leftPage (1 / 2) eq_refl) as E5.
  repeat split; try reflexivity; assumption.
Defined.

(** X12.  The setup effect of the second revision fails exactly when the
    group ref is set and the wireframe ref is null, where the first
    revision returns without a timeline; with the group ref null it
    returns at once, and with both refs set the two revisions build
    timelines with the same animated properties, start times and
    length. *)
Theorem Part000_setup_needs_the_wireframe :
  (forall w : World,
     groupRef w = Current -> wireframeRef w = Null ->
     ~ succeeds (Part000.useGSAP w) /\ useGSAP w = Ok w) /\
  (forall w : World, groupRef w = Null -> Part000.useGSAP w = Ok w) /\
  (forall w : World,
     groupRef w = Current -> wireframeRef w = Current ->
     exists tl tl',
       useGSAP w = Ok (install tl w) /\
       Part000.useGSAP w = Ok (install tl' w) /\
       gsap.tweenedProperties tl' = gsap.tweenedProperties tl /\
       map gsap.startTime (gsap.children tl') = map gsap.startTime (gsap.children tl) /\
       gsap.totalDuration tl' = gsap.totalDuration tl).
Proof.
  split; [| split].
  - intros w Hg Hw. split.
    + now apply Part000_useGSAP_wireframe_null.
    + unfold useGSAP. rewrite Hg, Hw. reflexivity.
  - intros w Hg. unfold Part000.useGSAP. rewrite Hg. reflexivity.
  - intros w Hg Hw. unfold useGSAP, Part000.useGSAP, buildTimeline.
    rewrite Hg, Hw. cbn [isNull orb deref bind].
    eexists. eexists. split; [reflexivity |]. split; [reflexivity |].
    vm_compute. repeat split; reflexivity.
Qed.

Lemma Part000_setup_needs_the_wireframe_witness :
  groupRef (withRefs Current Current Null mountedPage) = Current /\
  wireframeRef (withRefs Current Current Null mountedPage) = Null /\
  ~ succeeds (Part000.useGSAP (withRefs Current Current Null mountedPage)) /\
  groupRef leftPage = Null /\ Part000.useGSAP leftPage = Ok leftPage /\
  groupRef mountedPage = Current /\ wireframeRef mountedPage = Current /\
  succeeds (Part000.useGSAP mountedPage).
Proof.
  destruct Part000_setup_needs_the_wireframe as (H1 & H2 & H3).
  destruct (H1 (withRefs Current Current Null mountedPage) eq_refl eq_refl) as (E1 & _).
  pose proof (H2 leftPage eq_refl) as E2.
  destruct (H3 mountedPage eq_refl eq_refl) as (tl & tl' & _ & E3 & _).
  repeat split; try reflexivity; try assumption.
  exists (install tl' mountedPage). exact E3.
Defined.
